(** * The Arduino language server: message router, diagnostics fan-out and
    formatter set-up

    A shallow embedding of [handler/handler.go] (the [InoHandler] that sits
    between the IDE and clangd) and of [ls/ls_formatter.go], followed by the
    properties of the router that the specification states.

    Conventions.  Go [int] fields that only hold line numbers, versions or
    counters are [Z]; the tracked-files counter is incremented and decremented
    with the 64-bit wrap-around written out.  Go maps are [gmap]s, a
    [map[string]bool] that only ever stores [true] is a [gset].  Pointers that
    the code dereferences are [option]s, and a [nil] dereference is a panic.
    Writes to the log are not modelled. *)

From Stdlib Require Import Ascii String ZArith Lia.
From stdpp Require Import base option list strings gmap sets.

Local Open Scope Z_scope.

(** ** Results of code that may panic *)

Inductive outcome (A : Type) : Type :=
| Ok (a : A)
| Panic (msg : string).
Arguments Ok {A} a.
Arguments Panic {A} msg.

(** Go errors are compared by their text ([err.Error()]). *)
Definition error := string.

(** ** File-system paths ([go-paths-helper], [path/filepath])

    Paths are the canonical absolute path strings the server works with. *)
Module paths.

Fixpoint no_sep_or_dot (s : string) : bool :=
  match s with
  | EmptyString => true
  | String c s' =>
      negb (Ascii.eqb c "/"%char) && negb (Ascii.eqb c "."%char) && no_sep_or_dot s'
  end.

(** [filepath.Ext]: the suffix beginning at the final dot in the final
    element of the path, empty if there is no dot. *)
Fixpoint Ext (path : string) : string :=
  match path with
  | EmptyString => EmptyString
  | String c s' =>
      if Ascii.eqb c "."%char && no_sep_or_dot s' then path else Ext s'
  end.

Fixpoint HasPrefix (s p : string) : bool :=
  match p, s with
  | EmptyString, _ => true
  | String a p', String b s' => Ascii.eqb a b && HasPrefix s' p'
  | String _ _, EmptyString => false
  end.

Fixpoint TrimPrefix (s p : string) : string :=
  match p, s with
  | String a p', String b s' => if Ascii.eqb a b then TrimPrefix s' p' else s
  | _, _ => s
  end.

(** [Path.Join]. *)
Definition Join (dir name : string) : string := dir +:+ "/" +:+ name.

(** [Path.EquivalentTo] on canonical paths: the two name the same file. *)
Definition EquivalentTo (p q : string) : bool := bool_decide (p = q).

(** [Path.IsInsideDir]: [p] lies strictly below [dir]. *)
Definition IsInsideDir (p dir : string) : bool :=
  HasPrefix p (dir +:+ "/").

(** [dir.RelTo(p)] followed by [root.JoinPath(rel)], for [p] inside [dir]:
    the same relative path below another root. *)
Definition Rebase (dir root p : string) : string :=
  Join root (TrimPrefix p (dir +:+ "/")).

End paths.

(** ** LSP data ([lsp] package), as far as the handler reads and writes it *)
Module lsp.

Record Position := mkPosition { Line : Z; Character : Z }.

Record Range := mkRange { Start : Position; End_ : Position }.

Definition NilRange : Range := mkRange (mkPosition 0 0) (mkPosition 0 0).

(** Modelled from the spec: a document URI is "a canonicalised absolute path
    with a [file://] scheme"; the [lsp.DocumentURI] type itself is not among
    the sources.  The model keeps the canonical path. *)
Record DocumentURI := NewDocumentURI { Unbox : string }.

Definition NilURI : DocumentURI := NewDocumentURI "".
Definition NewDocumentURIFromPath (p : string) : DocumentURI := NewDocumentURI p.
Definition AsPath (u : DocumentURI) : string := Unbox u.
Definition Canonical (u : DocumentURI) : string := Unbox u.
Definition URIString (u : DocumentURI) : string := "file://" +:+ Unbox u.
Definition Ext (u : DocumentURI) : string := paths.Ext (Unbox u).

Record TextDocumentItem := mkTextDocumentItem {
  Item_URI : DocumentURI;
  Item_LanguageID : string;
  Item_Version : Z;
  Item_Text : string
}.

Record TextDocumentIdentifier := mkTextDocumentIdentifier {
  Ident_URI : DocumentURI
}.

Record VersionedTextDocumentIdentifier := mkVersionedTextDocumentIdentifier {
  VIdent_TextDocumentIdentifier : TextDocumentIdentifier;
  VIdent_Version : Z
}.

Record TextDocumentContentChangeEvent := mkTextDocumentContentChangeEvent {
  Change_Range : option Range;
  Change_RangeLength : Z;
  Change_Text : string
}.

Record DidOpenTextDocumentParams := mkDidOpenTextDocumentParams {
  DidOpen_TextDocument : TextDocumentItem
}.

Record DidCloseTextDocumentParams := mkDidCloseTextDocumentParams {
  DidClose_TextDocument : TextDocumentIdentifier
}.

Record DidChangeTextDocumentParams := mkDidChangeTextDocumentParams {
  DidChange_TextDocument : VersionedTextDocumentIdentifier;
  DidChange_ContentChanges : list TextDocumentContentChangeEvent
}.

Record TextDocumentPositionParams := mkTextDocumentPositionParams {
  TDPP_TextDocument : TextDocumentIdentifier;
  TDPP_Position : Position
}.

Record DocumentSymbolParams := mkDocumentSymbolParams {
  DSP_TextDocument : TextDocumentIdentifier
}.

Record Diagnostic := mkDiagnostic {
  Diag_Range : Range;
  Diag_Severity : Z;
  Diag_Code : string;
  Diag_Message : string
}.

Record PublishDiagnosticsParams := mkPublishDiagnosticsParams {
  PD_URI : DocumentURI;
  PD_Diagnostics : list Diagnostic
}.

(** [lsp.SKFunction], the LSP symbol kind of a function. *)
Definition SKFunction : Z := 12.

#[warnings="-register-all"]
Inductive DocumentSymbol := mkDocumentSymbol {
  Sym_Name : string;
  Sym_Detail : string;
  Sym_Deprecated : bool;
  Sym_Kind : Z;
  Sym_Range : Range;
  Sym_SelectionRange : Range;
  Sym_Children : list DocumentSymbol
}.

Record Location := mkLocation { Loc_URI : DocumentURI; Loc_Range : Range }.

Record SymbolInformation := mkSymbolInformation {
  SI_Name : string;
  SI_Kind : Z;
  SI_Location : Location
}.

Record DocumentSymbolArrayOrSymbolInformationArray := mkDocumentSymbolArrayOrSymbolInformationArray {
  DocumentSymbolArray : option (list DocumentSymbol);
  SymbolInformationArray : option (list SymbolInformation)
}.

Record MarkupContent := mkMarkupContent { MC_Kind : string; MC_Value : string }.

Record Hover := mkHover {
  Hover_Contents : MarkupContent;
  Hover_Range : option Range
}.

Record TextEdit := mkTextEdit { Edit_Range : Range; Edit_NewText : string }.

Record CompletionItem := mkCompletionItem {
  CI_Label : string;
  CI_InsertText : string;
  CI_TextEdit : option TextEdit
}.

Record CompletionList := mkCompletionList {
  CL_IsIncomplete : bool;
  CL_Items : list CompletionItem
}.

End lsp.

(** ** Text edits ([textutils] package) *)
Module textutils.

Definition newline : ascii := "010"%char.

(** Offset of the first character of line [n] of [text]. *)
Fixpoint GetLineOffset (text : string) (n : nat) : option nat :=
  match n, text with
  | O, _ => Some O
  | S _, EmptyString => None
  | S n', String c t =>
      S <$> GetLineOffset t (if Ascii.eqb c newline then n' else n)
  end.

(** Number of characters from the start of [text] to the end of its first
    line. *)
Fixpoint LineLength (text : string) : nat :=
  match text with
  | EmptyString => O
  | String c t => if Ascii.eqb c newline then O else S (LineLength t)
  end.

Definition GetOffset (text : string) (pos : lsp.Position) : option nat :=
  if (lsp.Line pos <? 0) || (lsp.Character pos <? 0) then None else
  o ← GetLineOffset text (Z.to_nat (lsp.Line pos));
  let rest := String.substring o (String.length text - o) text in
  if (LineLength rest <? Z.to_nat (lsp.Character pos))%nat then None
  else Some (o + Z.to_nat (lsp.Character pos))%nat.

(** Modelled from the spec: "apply the same textual edit" of an LSP content
    change, the text between the two positions of the range being replaced;
    [textutils.ApplyTextChange] is not among the sources. *)
Definition ApplyTextChange (text : string) (r : lsp.Range) (insertText : string)
  : option string :=
  s ← GetOffset text (lsp.Start r);
  e ← GetOffset text (lsp.End_ r);
  if (e <? s)%nat then None
  else Some (String.substring 0 s text +:+ insertText
             +:+ String.substring e (String.length text - e) text).

Fixpoint applyChanges (text : string)
    (changes : list lsp.TextDocumentContentChangeEvent) : option string :=
  match changes with
  | [] => Some text
  | change :: rest =>
      match lsp.Change_Range change with
      | Some r => t ← ApplyTextChange text r (lsp.Change_Text change);
                  applyChanges t rest
      | None => applyChanges (lsp.Change_Text change) rest
      end
  end.

(** Modelled from the spec: a tracked document is "mutated by
    [textDocument/didChange] via the standard LSP incremental edit
    algorithm"; [textutils.ApplyLSPTextDocumentContentChangeEvent] is not
    among the sources.  The handler discards its error result: a change that
    does not apply leaves the document as it was. *)
Definition ApplyLSPTextDocumentContentChangeEvent (textDoc : lsp.TextDocumentItem)
    (changes : list lsp.TextDocumentContentChangeEvent) (version : Z)
  : lsp.TextDocumentItem :=
  match applyChanges (lsp.Item_Text textDoc) changes with
  | Some newText =>
      lsp.mkTextDocumentItem (lsp.Item_URI textDoc) (lsp.Item_LanguageID textDoc)
        version newText
  | None => textDoc
  end.

End textutils.

(** ** The source map ([sourcemapper] package)

    The package is not among the sources: the handler is embedded against
    the interface the specification gives for it. *)
Module sourcemapper.

Record InoLine := mkInoLine { File : string; Line : Z }.

(** Modelled from the spec: the sentinel "not-ino" line that generated
    prototype lines map to ([sourcemapper.NotIno]). *)
Definition NotIno : InoLine := mkInoLine "/not-ino" 0.

(** Modelled from the spec: the URI of the sentinel
    ([sourcemapper.NotInoURI]). *)
Definition NotInoURI : lsp.DocumentURI := lsp.NewDocumentURI "/not-ino".

Record SourceRevision := mkSourceRevision { Version : Z; Text : string }.

(** The errors of a [.cpp] to [.ino] range conversion: the adjusted end of
    line, which the router treats as success, and a range whose ends lie in
    different files. *)
Inductive RangeErr :=
| AdjustedRangeErr
| InvalidRangeErr (msg : string).

(** Modelled from the spec: the operations of [sourcemapper.InoMapper] that
    the handler calls (section 3, "Source Map", and section 4.1).  [CppText]
    is the synthetic unit with its version; [InoToCppLineOk] is the forward
    map; [CppToInoRangeOk] and [CppToInoRange] are the inverse map on ranges;
    [IsPreprocessedCppLine] tells the generated prototype lines;
    [ApplyTextChange] is the incremental edit, which returns the dirty
    flag. *)
Class Mapper (InoMapper : Type) := {
  CppText : InoMapper → SourceRevision;
  InoToCppLineOk : InoMapper → lsp.DocumentURI → Z → option Z;
  CppToInoRangeOk : InoMapper → lsp.Range → string * lsp.Range * option RangeErr;
  CppToInoRange : InoMapper → lsp.Range → string * lsp.Range;
  IsPreprocessedCppLine : InoMapper → Z → bool;
  ApplyTextChange :
    InoMapper → lsp.DocumentURI → lsp.TextDocumentContentChangeEvent → InoMapper * bool
}.

(** Modelled from the spec: step 4 of the incremental edit of section 4.1,
    "bump [cpp_text.version] by 1", the one fact about
    [InoMapper.ApplyTextChange] that the versioning of the synthetic unit
    rests on. *)
Class MapperBumpsVersion (InoMapper : Type) `{Mapper InoMapper} := {
  ApplyTextChange_Version : ∀ (m : InoMapper) uri change,
    Version (CppText (ApplyTextChange m uri change).1) = Version (CppText m) + 1
}.

(** Modelled from the spec: "a [.ino] to [.cpp] range conversion maps start
    and end through the forward map independently"
    ([InoMapper.InoToCppLSPRangeOk]). *)
Definition InoToCppLSPRangeOk `{Mapper InoMapper} (s : InoMapper)
    (sourceURI : lsp.DocumentURI) (r : lsp.Range) : option lsp.Range :=
  startLine ← InoToCppLineOk s sourceURI (lsp.Line (lsp.Start r));
  endLine ← InoToCppLineOk s sourceURI (lsp.Line (lsp.End_ r));
  Some (lsp.mkRange (lsp.mkPosition startLine (lsp.Character (lsp.Start r)))
                    (lsp.mkPosition endLine (lsp.Character (lsp.End_ r)))).

End sourcemapper.

(** ** Go runtime behaviour the handler relies on *)

(** Go [int] arithmetic on a 64-bit platform wraps around. *)
Definition int_wrap (z : Z) : Z := (z + 2 ^ 63) mod 2 ^ 64 - 2 ^ 63.

(** The order in which [range] visits a map is unspecified; every order is
    a permutation of the entries. *)
Class GoRange := {
  range_map : ∀ {K} `{Countable K} {A}, gmap K A → list (K * A);
  range_set : gset string → list string;
  range_map_perm : ∀ {K} `{Countable K} {A} (m : gmap K A),
    range_map m ≡ₚ map_to_list m;
  range_set_perm : ∀ (s : gset string), range_set s ≡ₚ elements s
}.

(** [strings.Contains]. *)
Fixpoint Contains (s substr : string) : bool :=
  paths.HasPrefix s substr ||
  match s with
  | EmptyString => false
  | String _ s' => Contains s' substr
  end.

Global Instance DocumentURI_eq_dec : EqDecision lsp.DocumentURI.
Proof. solve_decision. Defined.

Global Instance DocumentURI_countable : Countable lsp.DocumentURI.
Proof.
  refine (inj_countable' lsp.Unbox lsp.NewDocumentURI _).
  intros []; reflexivity.
Defined.

(** ** JSON-RPC connections ([jsonrpc2.Conn])

    A connection records what was sent through it; sending on a closed
    connection is an error. *)
Record Conn (Msg : Type) := mkConn { sent : list Msg; closed : bool }.
Arguments mkConn {Msg} sent closed.
Arguments sent {Msg} c.
Arguments closed {Msg} c.

Definition ErrClosed : error := "jsonrpc2: connection is closed".

Definition Notify {Msg} (c : Conn Msg) (m : Msg) : Conn Msg * option error :=
  if closed c then (c, Some ErrClosed)
  else (mkConn (sent c ++ [m]) false, None).

(** The decoded parameters of the methods that are embedded
    ([lsp.ReadParams]); the constructor stands for the method as well. *)
Inductive Params :=
| DidOpenParams (p : lsp.DidOpenTextDocumentParams)
| DidCloseParams (p : lsp.DidCloseTextDocumentParams)
| DidChangeParams (p : lsp.DidChangeTextDocumentParams)
| CompletionParams (p : lsp.TextDocumentPositionParams)
| HoverParams (p : lsp.TextDocumentPositionParams)
| DocumentSymbolParams (p : lsp.DocumentSymbolParams).

Record Request := mkRequest { Notif : bool; ReqParams : Params }.

(** The decoded results of clangd ([lsp.SendRequest]).  [RawResult] is a
    result of a type that no case of [transformClangdResult] matches; the
    cases for code actions, text edits, locations, symbol information,
    highlights and workspace edits are not embedded. *)
Inductive ClangdResult :=
| HoverResult (r : lsp.Hover)
| CompletionListResult (r : lsp.CompletionList)
| DocumentSymbolResult (r : lsp.DocumentSymbolArrayOrSymbolInformationArray)
| RawResult (raw : string).

(** What [transformClangdResult] hands back to the IDE. *)
Inductive IdeResult :=
| IdeHover (r : lsp.Hover)
| IdeCompletionList (r : lsp.CompletionList)
| IdeDocumentSymbols (r : list lsp.DocumentSymbol)
| IdeUnchanged (r : ClangdResult).

(** What clangd answers to a request: a result ([None] is [nil]) and an
    error. *)
Definition ClangdReply : Type := option ClangdResult * option error.

Definition SendRequest (c : Conn Request) (m : Request) (reply : ClangdReply)
  : Conn Request * ClangdReply :=
  if closed c then (c, (None, Some ErrClosed))
  else (mkConn (sent c ++ [m]) false, reply).

(** ** The handler *)
Section Handler.
Context {InoMapper : Type} `{!sourcemapper.Mapper InoMapper} `{!GoRange}.

(** [InoHandler], without the locks, the notification counters, the
    progress proxy and the board configuration.  [sketchMapper] is set
    whenever [ClangdConn] is. *)
Record InoHandler := mkInoHandler {
  StdioConn : Conn lsp.PublishDiagnosticsParams;
  ClangdConn : option (Conn Request);
  buildSketchRoot : string;
  buildSketchCpp : string;
  buildSketchCppVersion : Z;
  buildSketchSymbols : list lsp.DocumentSymbol;
  buildSketchSymbolsLoad : bool;
  buildSketchSymbolsCheck : bool;
  rebuildSketchDeadline : option Z;
  sketchRoot : string;
  sketchMapper : InoMapper;
  sketchTrackedFilesCount : Z;
  docs : gmap string lsp.TextDocumentItem;
  inoDocsWithDiagnostics : gset string
}.

Definition set_StdioConn (v : Conn lsp.PublishDiagnosticsParams) (h : InoHandler) :=
  mkInoHandler v (ClangdConn h) (buildSketchRoot h) (buildSketchCpp h)
    (buildSketchCppVersion h) (buildSketchSymbols h) (buildSketchSymbolsLoad h)
    (buildSketchSymbolsCheck h) (rebuildSketchDeadline h) (sketchRoot h)
    (sketchMapper h) (sketchTrackedFilesCount h) (docs h) (inoDocsWithDiagnostics h).

Definition set_ClangdConn (v : option (Conn Request)) (h : InoHandler) :=
  mkInoHandler (StdioConn h) v (buildSketchRoot h) (buildSketchCpp h)
    (buildSketchCppVersion h) (buildSketchSymbols h) (buildSketchSymbolsLoad h)
    (buildSketchSymbolsCheck h) (rebuildSketchDeadline h) (sketchRoot h)
    (sketchMapper h) (sketchTrackedFilesCount h) (docs h) (inoDocsWithDiagnostics h).

Definition set_buildSketchSymbols (v : list lsp.DocumentSymbol) (h : InoHandler) :=
  mkInoHandler (StdioConn h) (ClangdConn h) (buildSketchRoot h) (buildSketchCpp h)
    (buildSketchCppVersion h) v (buildSketchSymbolsLoad h)
    (buildSketchSymbolsCheck h) (rebuildSketchDeadline h) (sketchRoot h)
    (sketchMapper h) (sketchTrackedFilesCount h) (docs h) (inoDocsWithDiagnostics h).

Definition set_buildSketchSymbolsLoad (v : bool) (h : InoHandler) :=
  mkInoHandler (StdioConn h) (ClangdConn h) (buildSketchRoot h) (buildSketchCpp h)
    (buildSketchCppVersion h) (buildSketchSymbols h) v
    (buildSketchSymbolsCheck h) (rebuildSketchDeadline h) (sketchRoot h)
    (sketchMapper h) (sketchTrackedFilesCount h) (docs h) (inoDocsWithDiagnostics h).

Definition set_buildSketchSymbolsCheck (v : bool) (h : InoHandler) :=
  mkInoHandler (StdioConn h) (ClangdConn h) (buildSketchRoot h) (buildSketchCpp h)
    (buildSketchCppVersion h) (buildSketchSymbols h) (buildSketchSymbolsLoad h)
    v (rebuildSketchDeadline h) (sketchRoot h)
    (sketchMapper h) (sketchTrackedFilesCount h) (docs h) (inoDocsWithDiagnostics h).

Definition set_rebuildSketchDeadline (v : option Z) (h : InoHandler) :=
  mkInoHandler (StdioConn h) (ClangdConn h) (buildSketchRoot h) (buildSketchCpp h)
    (buildSketchCppVersion h) (buildSketchSymbols h) (buildSketchSymbolsLoad h)
    (buildSketchSymbolsCheck h) v (sketchRoot h)
    (sketchMapper h) (sketchTrackedFilesCount h) (docs h) (inoDocsWithDiagnostics h).

Definition set_sketchMapper (v : InoMapper) (h : InoHandler) :=
  mkInoHandler (StdioConn h) (ClangdConn h) (buildSketchRoot h) (buildSketchCpp h)
    (buildSketchCppVersion h) (buildSketchSymbols h) (buildSketchSymbolsLoad h)
    (buildSketchSymbolsCheck h) (rebuildSketchDeadline h) (sketchRoot h)
    v (sketchTrackedFilesCount h) (docs h) (inoDocsWithDiagnostics h).

Definition set_sketchTrackedFilesCount (v : Z) (h : InoHandler) :=
  mkInoHandler (StdioConn h) (ClangdConn h) (buildSketchRoot h) (buildSketchCpp h)
    (buildSketchCppVersion h) (buildSketchSymbols h) (buildSketchSymbolsLoad h)
    (buildSketchSymbolsCheck h) (rebuildSketchDeadline h) (sketchRoot h)
    (sketchMapper h) v (docs h) (inoDocsWithDiagnostics h).

Definition set_docs (v : gmap string lsp.TextDocumentItem) (h : InoHandler) :=
  mkInoHandler (StdioConn h) (ClangdConn h) (buildSketchRoot h) (buildSketchCpp h)
    (buildSketchCppVersion h) (buildSketchSymbols h) (buildSketchSymbolsLoad h)
    (buildSketchSymbolsCheck h) (rebuildSketchDeadline h) (sketchRoot h)
    (sketchMapper h) (sketchTrackedFilesCount h) v (inoDocsWithDiagnostics h).

Definition set_inoDocsWithDiagnostics (v : gset string) (h : InoHandler) :=
  mkInoHandler (StdioConn h) (ClangdConn h) (buildSketchRoot h) (buildSketchCpp h)
    (buildSketchCppVersion h) (buildSketchSymbols h) (buildSketchSymbolsLoad h)
    (buildSketchSymbolsCheck h) (rebuildSketchDeadline h) (sketchRoot h)
    (sketchMapper h) (sketchTrackedFilesCount h) (docs h) v.

Definition unknownURI (uri : lsp.DocumentURI) : error :=
  "Document is not available: " +:+ lsp.URIString uri.

(** Modelled from the spec: "[scheduleRebuildEnvironment()] sets
    [rebuild_deadline = now + delay]" with a delay of about a second; the
    function is not among the sources.  Times are in milliseconds. *)
Definition rebuildDelay : Z := 1000.

Definition scheduleRebuildEnvironment (now : Z) (h : InoHandler) : InoHandler :=
  set_rebuildSketchDeadline (Some (now + rebuildDelay)) h.

(** *** Document identifiers, [.ino] to [.cpp]

    [IsInsideDir] and [RelTo] have no error to report on canonical absolute
    paths, so the two error returns of [ino2cppDocumentURI] do not arise. *)
Definition ino2cppDocumentURI (h : InoHandler) (inoURI : lsp.DocumentURI)
  : lsp.DocumentURI * option error :=
  let inoPath := lsp.AsPath inoURI in
  if bool_decide (paths.Ext inoPath = ".ino") then
    (lsp.NewDocumentURIFromPath (buildSketchCpp h), None)
  else if negb (paths.IsInsideDir inoPath (sketchRoot h)) then
    (inoURI, None)
  else
    (lsp.NewDocumentURIFromPath
       (paths.Rebase (sketchRoot h) (buildSketchRoot h) inoPath), None).

Definition ino2cppTextDocumentIdentifier (h : InoHandler)
    (doc : lsp.TextDocumentIdentifier) : lsp.TextDocumentIdentifier * option error :=
  let '(cppURI, err) := ino2cppDocumentURI h (lsp.Ident_URI doc) in
  (lsp.mkTextDocumentIdentifier cppURI, err).

Definition ino2cppVersionedTextDocumentIdentifier (h : InoHandler)
    (doc : lsp.VersionedTextDocumentIdentifier)
  : lsp.VersionedTextDocumentIdentifier * option error :=
  let '(cppURI, err) :=
    ino2cppDocumentURI h (lsp.Ident_URI (lsp.VIdent_TextDocumentIdentifier doc)) in
  (lsp.mkVersionedTextDocumentIdentifier (lsp.mkTextDocumentIdentifier cppURI)
     (lsp.VIdent_Version doc), err).

Definition zeroTextDocumentItem : lsp.TextDocumentItem :=
  lsp.mkTextDocumentItem lsp.NilURI "" 0 "".

Definition ino2cppTextDocumentItem (h : InoHandler) (inoItem : lsp.TextDocumentItem)
  : outcome (lsp.TextDocumentItem * option error) :=
  match ino2cppDocumentURI h (lsp.Item_URI inoItem) with
  | (_, Some err) => Ok (zeroTextDocumentItem, Some err)
  | (cppURI, None) =>
      if paths.EquivalentTo (lsp.AsPath cppURI) (buildSketchCpp h) then
        Ok (lsp.mkTextDocumentItem cppURI "cpp"
              (sourcemapper.Version (sourcemapper.CppText (sketchMapper h)))
              (sourcemapper.Text (sourcemapper.CppText (sketchMapper h))), None)
      else
        match docs h !! lsp.Canonical (lsp.Item_URI inoItem) with
        | Some doc =>
            Ok (lsp.mkTextDocumentItem cppURI (lsp.Item_LanguageID inoItem)
                  (lsp.Item_Version doc) (lsp.Item_Text doc), None)
        | None => Panic "nil pointer dereference"
        end
  end.

Definition ino2cppTextDocumentPositionParams (h : InoHandler)
    (inoParams : lsp.TextDocumentPositionParams)
  : option lsp.TextDocumentPositionParams * option error :=
  match ino2cppTextDocumentIdentifier h (lsp.TDPP_TextDocument inoParams) with
  | (_, Some err) => (None, Some err)
  | (cppDoc, None) =>
      let inoURI := lsp.Ident_URI (lsp.TDPP_TextDocument inoParams) in
      if bool_decide (lsp.Ext inoURI = ".ino") then
        match sourcemapper.InoToCppLineOk (sketchMapper h) inoURI
                (lsp.Line (lsp.TDPP_Position inoParams)) with
        | Some cppLine =>
            (Some (lsp.mkTextDocumentPositionParams cppDoc
                     (lsp.mkPosition cppLine
                        (lsp.Character (lsp.TDPP_Position inoParams)))), None)
        | None => (None, Some (unknownURI inoURI))
        end
      else
        (Some (lsp.mkTextDocumentPositionParams cppDoc (lsp.TDPP_Position inoParams)),
         None)
  end.

(** *** [textDocument/didOpen] and [textDocument/didClose] *)

Definition didOpen (inoDidOpen : lsp.DidOpenTextDocumentParams) (h : InoHandler)
  : InoHandler * outcome (option lsp.DidOpenTextDocumentParams * option error) :=
  let inoItem := lsp.DidOpen_TextDocument inoDidOpen in
  let h := set_docs (<[lsp.Canonical (lsp.Item_URI inoItem) := inoItem]> (docs h)) h in
  let forward (h : InoHandler) :=
    match ino2cppTextDocumentItem h inoItem with
    | Ok (cppItem, err) => (h, Ok (Some (lsp.mkDidOpenTextDocumentParams cppItem), err))
    | Panic msg => (h, Panic msg)
    end in
  if bool_decide (lsp.Ext (lsp.Item_URI inoItem) = ".ino") then
    let h := set_sketchTrackedFilesCount (int_wrap (sketchTrackedFilesCount h + 1)) h in
    if negb (sketchTrackedFilesCount h =? 1) then (h, Ok (None, None))
    else forward (set_buildSketchSymbolsLoad true h)
  else forward h.

Definition didClose (inoDidClose : lsp.DidCloseTextDocumentParams) (h : InoHandler)
  : InoHandler * (option lsp.DidCloseTextDocumentParams * option error) :=
  let inoIdentifier := lsp.DidClose_TextDocument inoDidClose in
  let forward (h : InoHandler) :=
    let '(cppIdentifier, err) := ino2cppTextDocumentIdentifier h inoIdentifier in
    (h, (Some (lsp.mkDidCloseTextDocumentParams cppIdentifier), err)) in
  match docs h !! lsp.Canonical (lsp.Ident_URI inoIdentifier) with
  | Some _ =>
      let h := set_docs (delete (lsp.Canonical (lsp.Ident_URI inoIdentifier)) (docs h)) h in
      if bool_decide (lsp.Ext (lsp.Ident_URI inoIdentifier) = ".ino") then
        let h := set_sketchTrackedFilesCount (int_wrap (sketchTrackedFilesCount h - 1)) h in
        if negb (sketchTrackedFilesCount h =? 0) then (h, (None, None))
        else forward h
      else forward h
  | None => (h, (None, Some (unknownURI (lsp.Ident_URI inoIdentifier))))
  end.

(** *** [textDocument/didChange] *)

Definition Position_le (p q : lsp.Position) : bool :=
  (lsp.Line p <? lsp.Line q)
  || ((lsp.Line p =? lsp.Line q) && (lsp.Character p <=? lsp.Character q)).

(** Modelled from the spec: an edit that "crossed a top-level symbol's
    range" ([lsp.Range.Overlaps], which is not among the sources): neither
    range ends before the other starts. *)
Definition Overlaps (r p : lsp.Range) : bool :=
  Position_le (lsp.Start r) (lsp.End_ p) && Position_le (lsp.Start p) (lsp.End_ r).

(** The rendering of the range in the message is left out. *)
Definition invalidChangeRange (uri : lsp.DocumentURI) (r : lsp.Range) : error :=
  "invalid change range " +:+ lsp.URIString uri.

(** The loop of [didChange] over the content changes of a [.ino] document;
    [cppChanges] is the list built so far. *)
Fixpoint didChange_changes (now : Z) (uri : lsp.DocumentURI)
    (changes cppChanges : list lsp.TextDocumentContentChangeEvent) (h : InoHandler)
  : InoHandler * outcome (list lsp.TextDocumentContentChangeEvent + error) :=
  match changes with
  | [] => (h, Ok (inl cppChanges))
  | inoChange :: rest =>
      match lsp.Change_Range inoChange with
      | None => (h, Panic "nil pointer dereference")
      | Some inoRange =>
          match sourcemapper.InoToCppLSPRangeOk (sketchMapper h) uri inoRange with
          | None => (h, Ok (inr (invalidChangeRange uri inoRange)))
          | Some cppRange =>
              let dirty :=
                existsb (λ sym, Overlaps (lsp.Sym_Range sym) cppRange)
                        (buildSketchSymbols h) in
              let '(mapper, mapperDirty) :=
                sourcemapper.ApplyTextChange (sketchMapper h) uri inoChange in
              let h := set_sketchMapper mapper h in
              let dirty := dirty || mapperDirty in
              let h := if dirty then scheduleRebuildEnvironment now h else h in
              let cppChange :=
                lsp.mkTextDocumentContentChangeEvent (Some cppRange)
                  (lsp.Change_RangeLength inoChange) (lsp.Change_Text inoChange) in
              didChange_changes now uri rest (cppChanges ++ [cppChange]) h
          end
      end
  end.

Definition didChange (now : Z) (req : lsp.DidChangeTextDocumentParams) (h : InoHandler)
  : InoHandler * outcome (option lsp.DidChangeTextDocumentParams * option error) :=
  let doc := lsp.DidChange_TextDocument req in
  let uri := lsp.Ident_URI (lsp.VIdent_TextDocumentIdentifier doc) in
  match docs h !! lsp.Canonical uri with
  | None => (h, Ok (None, Some (unknownURI uri)))
  | Some trackedDoc =>
      let h :=
        set_docs (<[lsp.Canonical uri :=
                      textutils.ApplyLSPTextDocumentContentChangeEvent trackedDoc
                        (lsp.DidChange_ContentChanges req) (lsp.VIdent_Version doc)]>
                    (docs h)) h in
      if bool_decide (lsp.Ext uri = ".ino") then
        match didChange_changes now uri (lsp.DidChange_ContentChanges req) [] h with
        | (h, Panic msg) => (h, Panic msg)
        | (h, Ok (inr err)) => (h, Ok (None, Some err))
        | (h, Ok (inl cppChanges)) =>
            let cppReq :=
              lsp.mkDidChangeTextDocumentParams
                (lsp.mkVersionedTextDocumentIdentifier
                   (lsp.mkTextDocumentIdentifier
                      (lsp.NewDocumentURIFromPath (buildSketchCpp h)))
                   (sourcemapper.Version (sourcemapper.CppText (sketchMapper h))))
                cppChanges in
            (h, Ok (Some cppReq, None))
        end
      else
        match ino2cppVersionedTextDocumentIdentifier h doc with
        | (_, Some err) => (h, Ok (None, Some err))
        | (cppDoc, None) =>
            (h, Ok (Some (lsp.mkDidChangeTextDocumentParams cppDoc
                            (lsp.DidChange_ContentChanges req)), None))
        end
  end.

(** *** Results of clangd, [.cpp] to [.ino] *)

(** The body of the loop of [cpp2inoDocumentSymbols]: the translation of
    one symbol, or [None] when the loop skips it. *)
Fixpoint cpp2inoDocumentSymbols_body (m : InoMapper) (origURI : lsp.DocumentURI)
    (symbol : lsp.DocumentSymbol) : option lsp.DocumentSymbol :=
  if sourcemapper.IsPreprocessedCppLine m (lsp.Line (lsp.Start (lsp.Sym_Range symbol)))
  then None else
  let '(inoFile, inoRange) := sourcemapper.CppToInoRange m (lsp.Sym_Range symbol) in
  let '(inoSelectionURI, inoSelectionRange) :=
    sourcemapper.CppToInoRange m (lsp.Sym_SelectionRange symbol) in
  if negb (bool_decide (inoFile = inoSelectionURI)) then None else
  if negb (bool_decide (inoFile = lsp.Unbox origURI)) then None else
  Some (lsp.mkDocumentSymbol (lsp.Sym_Name symbol) (lsp.Sym_Detail symbol)
          (lsp.Sym_Deprecated symbol) (lsp.Sym_Kind symbol) inoRange inoSelectionRange
          (let children := lsp.Sym_Children symbol in
           if negb (bool_decide (lsp.Ext origURI = ".ino"))
              || (length children =? 0)%nat
           then children
           else omap (cpp2inoDocumentSymbols_body m origURI) children)).

Definition cpp2inoDocumentSymbols (h : InoHandler)
    (origSymbols : list lsp.DocumentSymbol) (origURI : lsp.DocumentURI)
  : list lsp.DocumentSymbol :=
  if negb (bool_decide (lsp.Ext origURI = ".ino")) || (length origSymbols =? 0)%nat
  then origSymbols
  else omap (cpp2inoDocumentSymbols_body (sketchMapper h) origURI) origSymbols.

(** The body of the loop of the completion case of [transformClangdResult]:
    [newItems] after [item]. *)
Definition transformCompletionItems_body (h : InoHandler) (cppToIno : bool)
    (newItems : list lsp.CompletionItem) (item : lsp.CompletionItem)
  : list lsp.CompletionItem :=
  if negb (paths.HasPrefix (lsp.CI_InsertText item) "_") then
    let item :=
      match lsp.CI_TextEdit item with
      | Some edit =>
          if cppToIno then
            lsp.mkCompletionItem (lsp.CI_Label item) (lsp.CI_InsertText item)
              (Some (lsp.mkTextEdit
                       (sourcemapper.CppToInoRange (sketchMapper h)
                          (lsp.Edit_Range edit)).2
                       (lsp.Edit_NewText edit)))
          else item
      | None => item
      end in
    newItems ++ [item]
  else newItems.

Definition transformCompletionItems (h : InoHandler) (cppToIno : bool)
    (items : list lsp.CompletionItem) : list lsp.CompletionItem :=
  fold_left (transformCompletionItems_body h cppToIno) items [].

(** [transformClangdResult]; [None] is the [nil] result. *)
Definition transformClangdResult (h : InoHandler) (method : string)
    (inoURI cppURI : lsp.DocumentURI) (result : ClangdResult)
  : outcome (option IdeResult) :=
  let cppToIno :=
    negb (bool_decide (inoURI = lsp.NilURI))
    && paths.EquivalentTo (lsp.AsPath inoURI) (buildSketchCpp h) in
  match result with
  | HoverResult r =>
      if (String.length (lsp.MC_Value (lsp.Hover_Contents r)) =? 0)%nat then Ok None
      else if cppToIno then
        match lsp.Hover_Range r with
        | Some cppRange =>
            Ok (Some (IdeHover
                  (lsp.mkHover (lsp.Hover_Contents r)
                     (Some (sourcemapper.CppToInoRange (sketchMapper h) cppRange).2))))
        | None => Panic "nil pointer dereference"
        end
      else Ok (Some (IdeHover r))
  | CompletionListResult r =>
      Ok (Some (IdeCompletionList
            (lsp.mkCompletionList (lsp.CL_IsIncomplete r)
               (transformCompletionItems h cppToIno (lsp.CL_Items r)))))
  | DocumentSymbolResult r =>
      match lsp.DocumentSymbolArray r, lsp.SymbolInformationArray r with
      | Some symbols, _ =>
          Ok (Some (IdeDocumentSymbols (cpp2inoDocumentSymbols h symbols inoURI)))
      | None, Some _ => Panic "not implemented"
      | None, None => Ok (Some (IdeUnchanged result))
      end
  | RawResult _ => Ok (Some (IdeUnchanged result))
  end.

Definition inoDocumentURIFromInoPath (h : InoHandler) (inoPath : string)
  : lsp.DocumentURI * option error :=
  if bool_decide (inoPath = sourcemapper.File sourcemapper.NotIno) then
    (sourcemapper.NotInoURI, None)
  else
    match docs h !! inoPath with
    | None =>
        let uri := lsp.NewDocumentURI inoPath in
        (uri, Some (unknownURI uri))
    | Some doc => (lsp.Item_URI doc, None)
    end.

(** [cpp2inoDocumentURI].  As in [ino2cppDocumentURI], the error returns of
    [IsInsideDir] and [RelTo] do not arise. *)
Definition cpp2inoDocumentURI (h : InoHandler) (cppURI : lsp.DocumentURI)
    (cppRange : lsp.Range) : lsp.DocumentURI * lsp.Range * option error :=
  let cppPath := lsp.AsPath cppURI in
  if paths.EquivalentTo cppPath (buildSketchCpp h) then
    match sourcemapper.CppToInoRangeOk (sketchMapper h) cppRange with
    | (_, _, Some (sourcemapper.InvalidRangeErr msg)) =>
        (lsp.NilURI, lsp.NilRange, Some msg)
    | (inoPath, inoRange, _) =>
        let '(inoURI, err) := inoDocumentURIFromInoPath h inoPath in
        (inoURI, inoRange, err)
    end
  else if negb (paths.IsInsideDir cppPath (buildSketchRoot h)) then
    (cppURI, cppRange, None)
  else
    (lsp.NewDocumentURIFromPath
       (paths.Rebase (buildSketchRoot h) (sketchRoot h) cppPath), cppRange, None).

(** *** Diagnostics fan-out *)

(** The loop of [cpp2inoDiagnostics] that buckets the diagnostics by
    [.ino] document. *)
Fixpoint cpp2inoDiagnostics_loop (h : InoHandler) (cppURI : lsp.DocumentURI)
    (cppDiags : list lsp.Diagnostic)
    (convertedDiagnostics : gmap lsp.DocumentURI lsp.PublishDiagnosticsParams)
  : gmap lsp.DocumentURI lsp.PublishDiagnosticsParams + error :=
  match cppDiags with
  | [] => inl convertedDiagnostics
  | cppDiag :: rest =>
      match cpp2inoDocumentURI h cppURI (lsp.Diag_Range cppDiag) with
      | (_, _, Some err) => inr err
      | (inoURI, inoRange, None) =>
          let inoDiagParam :=
            match convertedDiagnostics !! inoURI with
            | Some created => created
            | None => lsp.mkPublishDiagnosticsParams inoURI []
            end in
          let inoDiag :=
            lsp.mkDiagnostic inoRange (lsp.Diag_Severity cppDiag)
              (lsp.Diag_Code cppDiag) (lsp.Diag_Message cppDiag) in
          cpp2inoDiagnostics_loop h cppURI rest
            (<[inoURI := lsp.mkPublishDiagnosticsParams (lsp.PD_URI inoDiagParam)
                           (lsp.PD_Diagnostics inoDiagParam ++ [inoDiag])]>
               convertedDiagnostics)
      end
  end.

Definition cpp2inoDiagnostics (h : InoHandler) (cppDiags : lsp.PublishDiagnosticsParams)
  : list lsp.PublishDiagnosticsParams * option error :=
  if (length (lsp.PD_Diagnostics cppDiags) =? 0)%nat then
    if paths.EquivalentTo (lsp.AsPath (lsp.PD_URI cppDiags)) (buildSketchCpp h) then
      ([], None)
    else
      let '(inoURI, _, err) := cpp2inoDocumentURI h (lsp.PD_URI cppDiags) lsp.NilRange in
      ([lsp.mkPublishDiagnosticsParams inoURI []], err)
  else
    match cpp2inoDiagnostics_loop h (lsp.PD_URI cppDiags) (lsp.PD_Diagnostics cppDiags) ∅ with
    | inr err => ([], Some err)
    | inl convertedDiagnostics => ((range_map convertedDiagnostics).*2, None)
    end.

Definition isUndeclaredVarUse (diag : lsp.Diagnostic) : bool :=
  bool_decide (lsp.Diag_Code diag = "undeclared_var_use_suggest")
  || bool_decide (lsp.Diag_Code diag = "undeclared_var_use").

(** The loop of [FromClangd] that pushes the converted diagnostics back to
    the IDE; it threads [cleanUpInoDiagnostics] and the new
    [inoDocsWithDiagnostics]. *)
Fixpoint FromClangd_publish (inoDiagnostics : list lsp.PublishDiagnosticsParams)
    (cleanUpInoDiagnostics : bool) (inoDocsWithDiagnostics : gset string)
    (h : InoHandler) : InoHandler * bool * gset string * option error :=
  match inoDiagnostics with
  | [] => (h, cleanUpInoDiagnostics, inoDocsWithDiagnostics, None)
  | inoDiag :: rest =>
      if bool_decide (lsp.URIString (lsp.PD_URI inoDiag)
                      = lsp.URIString sourcemapper.NotInoURI) then
        FromClangd_publish rest true inoDocsWithDiagnostics h
      else
        let isIno := bool_decide (lsp.Ext (lsp.PD_URI inoDiag) = ".ino") in
        let inoDocsWithDiagnostics :=
          if isIno then {[lsp.Canonical (lsp.PD_URI inoDiag)]} ∪ inoDocsWithDiagnostics
          else inoDocsWithDiagnostics in
        let cleanUpInoDiagnostics := if isIno then true else cleanUpInoDiagnostics in
        let h :=
          if isIno && existsb isUndeclaredVarUse (lsp.PD_Diagnostics inoDiag)
          then set_buildSketchSymbolsCheck true h else h in
        match Notify (StdioConn h) inoDiag with
        | (conn, Some err) =>
            (set_StdioConn conn h, cleanUpInoDiagnostics, inoDocsWithDiagnostics, Some err)
        | (conn, None) =>
            FromClangd_publish rest cleanUpInoDiagnostics inoDocsWithDiagnostics
              (set_StdioConn conn h)
        end
  end.

(** The loop of [FromClangd] over the previous [inoDocsWithDiagnostics]
    that clears the diagnostics of the documents without a fresh batch. *)
Fixpoint FromClangd_cleanUp (sourcePaths : list string)
    (inoDocsWithDiagnostics : gset string) (h : InoHandler)
  : InoHandler * option error :=
  match sourcePaths with
  | [] => (h, None)
  | sourcePath :: rest =>
      if bool_decide (sourcePath ∈ inoDocsWithDiagnostics) then
        FromClangd_cleanUp rest inoDocsWithDiagnostics h
      else
        let msg := lsp.mkPublishDiagnosticsParams (lsp.NewDocumentURI sourcePath) [] in
        match Notify (StdioConn h) msg with
        | (conn, Some err) => (set_StdioConn conn h, Some err)
        | (conn, None) =>
            FromClangd_cleanUp rest inoDocsWithDiagnostics (set_StdioConn conn h)
        end
  end.

(** [FromClangd], the case of [textDocument/publishDiagnostics]. *)
Definition FromClangd (p : lsp.PublishDiagnosticsParams) (h : InoHandler)
  : InoHandler * option error :=
  match cpp2inoDiagnostics h p with
  | (_, Some err) => (h, Some err)
  | (inoDiagnostics, None) =>
      let cleanUpInoDiagnostics := (length inoDiagnostics =? 0)%nat in
      match FromClangd_publish inoDiagnostics cleanUpInoDiagnostics ∅ h with
      | (h, _, _, Some err) => (h, Some err)
      | (h, cleanUpInoDiagnostics, newDocsWithDiagnostics, None) =>
          if cleanUpInoDiagnostics then
            match FromClangd_cleanUp (range_set (inoDocsWithDiagnostics h))
                    newDocsWithDiagnostics h with
            | (h, Some err) => (h, Some err)
            | (h, None) => (set_inoDocsWithDiagnostics newDocsWithDiagnostics h, None)
            end
          else (h, None)
      end
  end.

(** *** Refresh and check of the top-level symbols *)

Definition refreshCppDocumentSymbols (reply : ClangdReply) (h : InoHandler)
  : InoHandler * outcome (option error) :=
  let cppURI := lsp.NewDocumentURIFromPath (buildSketchCpp h) in
  match ClangdConn h with
  | None => (h, Panic "nil pointer dereference")
  | Some conn =>
      let '(conn, (result, err)) :=
        SendRequest conn
          (mkRequest false (DocumentSymbolParams
             (lsp.mkDocumentSymbolParams (lsp.mkTextDocumentIdentifier cppURI))))
          reply in
      let h := set_ClangdConn (Some conn) h in
      match err with
      | Some err => (h, Ok (Some ("quering source code symbols: " +:+ err)))
      | None =>
          let transformed :=
            match result with
            | Some r =>
                transformClangdResult h "textDocument/documentSymbol" cppURI lsp.NilURI r
            | None => Ok None
            end in
          match transformed with
          | Panic msg => (h, Panic msg)
          | Ok (Some (IdeDocumentSymbols symbols)) =>
              (set_buildSketchSymbols
                 (filter (λ symbol, lsp.Sym_Kind symbol = lsp.SKFunction) symbols) h,
               Ok None)
          | Ok _ => (h, Ok (Some "invalid response from clangd"))
          end
      end
  end.

(** The loop of [checkCppDocumentSymbols] over the old symbols, from index
    [i] on. *)
Fixpoint checkCppDocumentSymbols_loop (now : Z) (i : nat)
    (oldSymbols : list lsp.DocumentSymbol) (h : InoHandler)
  : InoHandler * outcome (option error) :=
  match oldSymbols with
  | [] => (h, Ok None)
  | old :: rest =>
      match buildSketchSymbols h !! i with
      | None => (h, Panic "index out of range")
      | Some new =>
          if negb (bool_decide (lsp.Sym_Name old = lsp.Sym_Name new)) then
            (scheduleRebuildEnvironment now h, Ok None)
          else checkCppDocumentSymbols_loop now (S i) rest h
      end
  end.

Definition checkCppDocumentSymbols (now : Z) (reply : ClangdReply) (h : InoHandler)
  : InoHandler * outcome (option error) :=
  let oldSymbols := buildSketchSymbols h in
  match refreshCppDocumentSymbols reply h with
  | (h, Panic msg) => (h, Panic msg)
  | (h, Ok (Some err)) => (h, Ok (Some err))
  | (h, Ok None) =>
      if negb (length oldSymbols =? length (buildSketchSymbols h))%nat then
        (scheduleRebuildEnvironment now h, Ok None)
      else checkCppDocumentSymbols_loop now 0 oldSymbols h
  end.

(** *** Messages from the IDE *)

(** The tasks that [HandleMessageFromIDE] starts with [go]. *)
Inductive Task := RefreshCppDocumentSymbols | CheckCppDocumentSymbols.

(** How a call of [HandleMessageFromIDE] ends: it returns a result and an
    error to the IDE, it exits the process, or it panics (the deferred
    [CatchAndLogPanic] then recovers). *)
Inductive Answer :=
| Replied (result : option IdeResult) (err : option error)
| Exited
| Panicked (msg : string).

Definition Method (params : Params) : string :=
  match params with
  | DidOpenParams _ => "textDocument/didOpen"
  | DidCloseParams _ => "textDocument/didClose"
  | DidChangeParams _ => "textDocument/didChange"
  | CompletionParams _ => "textDocument/completion"
  | HoverParams _ => "textDocument/hover"
  | DocumentSymbolParams _ => "textDocument/documentSymbol"
  end.

(** The errors after which the handler exits. *)
Definition severeError (err : error) : bool :=
  bool_decide (err = "context deadline exceeded")
  || Contains err "non-added document" || Contains err "non-added file".

(** The tail of [HandleMessageFromIDE]: [params] goes to clangd, the symbol
    tasks are queued, and the result is transformed. *)
Definition HandleMessageFromIDE_forward (req : Request) (reply : ClangdReply)
    (params : Params) (inoURI cppURI : lsp.DocumentURI) (h : InoHandler)
  : InoHandler * list Task * Answer :=
  match ClangdConn h with
  | None => (h, [], Panicked "nil pointer dereference")
  | Some conn =>
      let '(conn, (result, err)) :=
        if Notif req then
          let '(conn, err) := Notify conn (mkRequest true params) in (conn, (None, err))
        else SendRequest conn (mkRequest false params) reply in
      let h := set_ClangdConn (Some conn) h in
      let '(h, load) :=
        if bool_decide (err = None) && buildSketchSymbolsLoad h
        then (set_buildSketchSymbolsLoad false h, [RefreshCppDocumentSymbols])
        else (h, []) in
      let '(h, check) :=
        if bool_decide (err = None) && buildSketchSymbolsCheck h
        then (set_buildSketchSymbolsCheck false h, [CheckCppDocumentSymbols])
        else (h, []) in
      if from_option severeError false err then
        (set_ClangdConn None h, load ++ check, Exited)
      else
        match result with
        | None => (h, load ++ check, Replied None err)
        | Some r =>
            match transformClangdResult h (Method (ReqParams req)) inoURI cppURI r with
            | Ok result => (h, load ++ check, Replied result err)
            | Panic msg => (h, load ++ check, Panicked msg)
            end
        end
  end.

(** [HandleMessageFromIDE] for the methods embedded.  The wait for the
    start of clangd is represented by its outcome: a handler without
    [ClangdConn] is one whose clangd failed to start.  [reply] is what
    clangd answers if the message is sent to it as a request, [now] the
    time of the call. *)
Definition HandleMessageFromIDE (now : Z) (req : Request) (reply : ClangdReply)
    (h : InoHandler) : InoHandler * list Task * Answer :=
  match ClangdConn h with
  | None => (h, [], Replied None (Some "could not start clangd, aborted"))
  | Some conn =>
      match ReqParams req with
      | DidOpenParams p =>
          let inoURI := lsp.Item_URI (lsp.DidOpen_TextDocument p) in
          match didOpen p h with
          | (h, Panic msg) => (h, [], Panicked msg)
          | (h, Ok (_, Some e)) => (h, [], Replied None (Some e))
          | (h, Ok (None, None)) => (h, [], Replied None None)
          | (h, Ok (Some res, None)) =>
              HandleMessageFromIDE_forward req reply (DidOpenParams res) inoURI lsp.NilURI h
          end
      | DidCloseParams p =>
          let inoURI := lsp.Ident_URI (lsp.DidClose_TextDocument p) in
          match didClose p h with
          | (h, (_, Some e)) =>
              (* the branch for [e != nil] is empty: [params] is still [p] *)
              HandleMessageFromIDE_forward req reply (DidCloseParams p) inoURI lsp.NilURI h
          | (h, (None, None)) => (h, [], Replied None None)
          | (h, (Some res, None)) =>
              HandleMessageFromIDE_forward req reply (DidCloseParams res) inoURI lsp.NilURI h
          end
      | DidChangeParams p =>
          match didChange now p h with
          | (h, Panic msg) => (h, [], Panicked msg)
          | (h, Ok (_, Some err)) => (h, [], Replied None (Some err))
          | (h, Ok (None, None)) => (h, [], Replied None None)
          | (h, Ok (Some res, None)) =>
              let '(conn, err) := Notify conn (mkRequest true (DidChangeParams res)) in
              (set_ClangdConn (Some conn) h, [], Replied None err)
          end
      | CompletionParams p =>
          let inoURI := lsp.Ident_URI (lsp.TDPP_TextDocument p) in
          match ino2cppTextDocumentPositionParams h p with
          | (_, Some e) => (h, [], Replied None (Some e))
          | (None, None) => (h, [], Panicked "nil pointer dereference")
          | (Some res, None) =>
              HandleMessageFromIDE_forward req reply (CompletionParams res) inoURI lsp.NilURI h
          end
      | HoverParams p =>
          let inoURI := lsp.Ident_URI (lsp.TDPP_TextDocument p) in
          match ino2cppTextDocumentPositionParams h p with
          | (_, Some e) => (h, [], Replied None (Some e))
          | (None, None) => (h, [], Panicked "nil pointer dereference")
          | (Some res, None) =>
              HandleMessageFromIDE_forward req reply (HoverParams res) inoURI lsp.NilURI h
          end
      | DocumentSymbolParams p =>
          let inoURI := lsp.Ident_URI (lsp.DSP_TextDocument p) in
          match ino2cppTextDocumentIdentifier h (lsp.DSP_TextDocument p) with
          | (_, Some e) => (h, [], Replied None (Some e))
          | (cppDoc, None) =>
              HandleMessageFromIDE_forward req reply
                (DocumentSymbolParams (lsp.mkDocumentSymbolParams cppDoc)) inoURI lsp.NilURI h
          end
      end
  end.

End Handler.

Arguments InoHandler InoMapper : clear implicits.

(** ** Vocabulary of the properties *)
Section Vocabulary.
Context {InoMapper : Type} `{!sourcemapper.Mapper InoMapper} `{!GoRange}.
Implicit Types h : InoHandler InoMapper.

(** Two lists of symbols differ for the check of the top-level symbols:
    their lengths differ, or some index holds symbols with different
    names. *)
Definition symbolsDiffer (old new : list lsp.DocumentSymbol) : Prop :=
  length old ≠ length new
  ∨ ∃ i o n, old !! i = Some o ∧ new !! i = Some n ∧ lsp.Sym_Name o ≠ lsp.Sym_Name n.

(** Every content change carries a range that the source map translates
    when its turn comes, the earlier changes having been applied. *)
Fixpoint changesTranslate (m : InoMapper) (uri : lsp.DocumentURI)
    (changes : list lsp.TextDocumentContentChangeEvent) : bool :=
  match changes with
  | [] => true
  | change :: rest =>
      match lsp.Change_Range change with
      | None => false
      | Some inoRange =>
          match sourcemapper.InoToCppLSPRangeOk m uri inoRange with
          | None => false
          | Some _ =>
              changesTranslate (sourcemapper.ApplyTextChange m uri change).1 uri rest
          end
      end
  end.

Definition didChangeURI (p : lsp.DidChangeTextDocumentParams) : lsp.DocumentURI :=
  lsp.Ident_URI (lsp.VIdent_TextDocumentIdentifier (lsp.DidChange_TextDocument p)).

(** The source map after the content changes of one notification have
    been applied to it, one after the other. *)
Fixpoint mapperAfter (m : InoMapper) (uri : lsp.DocumentURI)
    (changes : list lsp.TextDocumentContentChangeEvent) : InoMapper :=
  match changes with
  | [] => m
  | change :: rest =>
      mapperAfter (sourcemapper.ApplyTextChange m uri change).1 uri rest
  end.

(** The translation of the content changes of one notification: every
    change keeps its text and its range length, and its range is the
    translation by the source map of the range of the [.ino] change, taken
    when its turn comes, the earlier changes having been applied. *)
Fixpoint translatedChanges (m : InoMapper) (uri : lsp.DocumentURI)
    (changes : list lsp.TextDocumentContentChangeEvent)
  : list lsp.TextDocumentContentChangeEvent :=
  match changes with
  | [] => []
  | change :: rest =>
      lsp.mkTextDocumentContentChangeEvent
        (lsp.Change_Range change ≫= sourcemapper.InoToCppLSPRangeOk m uri)
        (lsp.Change_RangeLength change) (lsp.Change_Text change)
      :: translatedChanges (sourcemapper.ApplyTextChange m uri change).1 uri rest
  end.

(** The translated content changes of each notification of a run that
    starts with the source map [m]. *)
Fixpoint translatedRun (m : InoMapper) (ps : list lsp.DidChangeTextDocumentParams)
  : list (list lsp.TextDocumentContentChangeEvent) :=
  match ps with
  | [] => []
  | p :: rest =>
      translatedChanges m (didChangeURI p) (lsp.DidChange_ContentChanges p)
      :: translatedRun
           (mapperAfter m (didChangeURI p) (lsp.DidChange_ContentChanges p)) rest
  end.

(** The handler after a run of [textDocument/didChange] notifications. *)
Fixpoint didChangeAll (now : Z) (ps : list lsp.DidChangeTextDocumentParams) h
  : InoHandler InoMapper :=
  match ps with
  | [] => h
  | p :: rest =>
      didChangeAll now rest
        (HandleMessageFromIDE now (mkRequest true (DidChangeParams p)) (None, None) h).1.1
  end.

(** Every notification of the run is for a tracked [.ino] document and its
    changes translate when its turn comes. *)
Fixpoint didChangesTranslate (now : Z) (ps : list lsp.DidChangeTextDocumentParams) h
  : bool :=
  match ps with
  | [] => true
  | p :: rest =>
      bool_decide (is_Some (docs h !! lsp.Canonical (didChangeURI p)))
      && bool_decide (lsp.Ext (didChangeURI p) = ".ino")
      && changesTranslate (sketchMapper h) (didChangeURI p) (lsp.DidChange_ContentChanges p)
      && didChangesTranslate now rest
           (HandleMessageFromIDE now (mkRequest true (DidChangeParams p)) (None, None) h).1.1
  end.

(** The versions of the synthetic unit after each notification of a run
    that starts at [version], one step per content change. *)
Fixpoint versionsAfter (version : Z) (ps : list lsp.DidChangeTextDocumentParams)
  : list Z :=
  match ps with
  | [] => []
  | p :: rest =>
      let version := version + Z.of_nat (length (lsp.DidChange_ContentChanges p)) in
      version :: versionsAfter version rest
  end.

Definition isNotIno (b : lsp.PublishDiagnosticsParams) : Prop :=
  lsp.PD_URI b = sourcemapper.NotInoURI.

Definition isIno (b : lsp.PublishDiagnosticsParams) : Prop :=
  lsp.Ext (lsp.PD_URI b) = ".ino".

(** The canonical paths of the batches for [.ino] documents: the new
    [inoDocsWithDiagnostics]. *)
Definition freshInoDocs (batches : list lsp.PublishDiagnosticsParams) : gset string :=
  list_to_set (lsp.Canonical ∘ lsp.PD_URI
               <$> filter (λ b, ¬ isNotIno b ∧ isIno b) batches).

(** The batch that clears the diagnostics of a document. *)
Definition emptyBatch (sourcePath : string) : lsp.PublishDiagnosticsParams :=
  lsp.mkPublishDiagnosticsParams (lsp.NewDocumentURI sourcePath) [].

(** The fan-out runs its clearing pass: there is no batch at all, or a
    batch for the sentinel or for a [.ino] document. *)
Definition cleanUpTriggered (batches : list lsp.PublishDiagnosticsParams) : Prop :=
  batches = [] ∨ Exists (λ b, isNotIno b ∨ isIno b) batches.

(** The version of the synthetic unit. *)
Definition unitVersion (h : InoHandler InoMapper) : Z :=
  sourcemapper.Version (sourcemapper.CppText (sketchMapper h)).

End Vocabulary.

(** ** Formatter set-up ([ls/ls_formatter.go]) *)
Module ls.

(** The part of the file system the formatter set-up touches: a node is a
    directory or a regular file, and a file may deny reading. *)
Inductive Node :=
| Dir
| File (content : string) (readable : bool).

Abbreviation FileSystem := (gmap string Node).

(** [Path.Exist]. *)
Definition Exist (fs : FileSystem) (p : string) : bool := bool_decide (is_Some (fs !! p)).

(** [Path.IsNotDir]: the path exists and is not a directory. *)
Definition IsNotDir (fs : FileSystem) (p : string) : bool :=
  match fs !! p with
  | Some (File _ _) => true
  | _ => false
  end.

Fixpoint has_sep (s : string) : bool :=
  match s with
  | EmptyString => false
  | String c s' => Ascii.eqb c "/"%char || has_sep s'
  end.

Fixpoint beforeLastSep (p : string) : string :=
  match p with
  | EmptyString => EmptyString
  | String c p' => if has_sep p' then String c (beforeLastSep p') else EmptyString
  end.

(** [Path.Parent] ([filepath.Dir]) on a clean path: the path without its
    last element, the root for an element of the root, and [.] for a path
    of one element. *)
Definition Parent (p : string) : string :=
  if has_sep p then
    match beforeLastSep p with
    | EmptyString => "/"
    | dir => dir
    end
  else ".".

(** [Path.ReadFile]; [None] is an error. *)
Definition ReadFile (fs : FileSystem) (p : string) : option string :=
  match fs !! p with
  | Some (File content true) => Some content
  | _ => None
  end.

(** [Path.WriteFile]: creates the file in an existing directory, or
    truncates it. *)
Definition WriteFile (fs : FileSystem) (p : string) (data : string)
  : FileSystem * option error :=
  match fs !! Parent p, fs !! p with
  | Some Dir, None => (<[p := File data true]> fs, None)
  | Some Dir, Some (File _ readable) => (<[p := File data readable]> fs, None)
  | _, _ => (fs, Some ("open " +:+ p +:+ ": cannot write"))
  end.

(** [Path.Remove]: removes a file or an empty directory; the cleanup
    discards its error. *)
Definition Remove (fs : FileSystem) (p : string) : FileSystem :=
  match fs !! p with
  | Some Dir =>
      if decide (map_Forall (λ q _, paths.HasPrefix q (p +:+ "/") = false) fs)
      then delete p fs else fs
  | _ => delete p fs
  end.

Record INOLanguageServer := mkINOLanguageServer {
  sketchRoot : string;
  config_FormatterConf : option string
}.

Section Formatter.
(** The text of the configuration baked into the function. *)
Variable defaultConfig : string.

(** The closure [try] of [createClangdFormatterConfig]: [config] after the
    attempt to read [conf]. *)
Definition try (fs : FileSystem) (conf : string) (config : string) : string :=
  match ReadFile fs conf with
  | None => config
  | Some c => c
  end.

(** [createClangdFormatterConfig]: the file system after the call, the
    cleanup closure and the error of the write. *)
Definition createClangdFormatterConfig (fs : FileSystem) (ls : INOLanguageServer)
    (cppuri : lsp.DocumentURI) : FileSystem * (FileSystem → FileSystem) * option error :=
  let config := defaultConfig in
  let sketchFormatterConf := paths.Join (sketchRoot ls) ".clang-format" in
  let config :=
    if Exist fs sketchFormatterConf then try fs sketchFormatterConf config
    else
      match config_FormatterConf ls with
      | Some conf => if Exist fs conf then try fs conf config else config
      | None => config
      end in
  let targetFile := lsp.AsPath cppuri in
  let targetFile := if IsNotDir fs targetFile then Parent targetFile else targetFile in
  let targetFile := paths.Join targetFile ".clang-format" in
  let cleanup := λ fs : FileSystem, Remove fs targetFile in
  let '(fs, err) := WriteFile fs targetFile config in
  (fs, cleanup, err).

(** The path the configuration is written to. *)
Definition targetFile (fs : FileSystem) (cppuri : lsp.DocumentURI) : string :=
  paths.Join
    (if IsNotDir fs (lsp.AsPath cppuri) then Parent (lsp.AsPath cppuri)
     else lsp.AsPath cppuri)
    ".clang-format".

End Formatter.

(** The write of [createClangdFormatterConfig] succeeds when the target
    lies in an existing directory and is not itself a directory. *)
Definition writable (fs : FileSystem) (p : string) : Prop :=
  fs !! Parent p = Some Dir ∧ fs !! p ≠ Some Dir.

(** [createClangdFormatterConfig] writes [content] to the target file and
    returns a cleanup action that removes that file and nothing else. *)
Definition writes (defaultConfig : string) (fs : FileSystem) (ls : INOLanguageServer)
    (cppuri : lsp.DocumentURI) (content : string) : Prop :=
  ∃ fs' cleanup readable,
    createClangdFormatterConfig defaultConfig fs ls cppuri = (fs', cleanup, None)
    ∧ fs' !! targetFile fs cppuri = Some (File content readable)
    ∧ (∀ p, p ≠ targetFile fs cppuri → fs' !! p = fs !! p)
    ∧ cleanup fs' = delete (targetFile fs cppuri) fs'.

(** A file that is there and can be read, and one that is there and
    cannot. *)
Definition readableAs (fs : FileSystem) (p : string) (content : string) : Prop :=
  fs !! p = Some (File content true).

Definition unreadable (fs : FileSystem) (p : string) : Prop :=
  fs !! p = Some Dir ∨ ∃ content, fs !! p = Some (File content false).

End ls.

(** ** A line-table source map

    A concrete [sourcemapper.Mapper] for the scenarios below: the synthetic
    unit with, for each of its lines, the [.ino] line it comes from or the
    sentinel. *)
Module linetable.
Import sourcemapper.

Global Instance InoLine_eq_dec : EqDecision InoLine.
Proof. solve_decision. Defined.

Record InoMapper := mkInoMapper {
  cppText : SourceRevision;
  toIno : list InoLine
}.

(** Modelled from the spec: [cpp_to_ino(cpp_line)], the [.ino] line or the
    sentinel. *)
Definition CppToInoLine (s : InoMapper) (targetLine : Z) : InoLine :=
  if targetLine <? 0 then NotIno
  else nth (Z.to_nat targetLine) (toIno s) NotIno.

(** Modelled from the spec: [ino_to_cpp_line(ino_uri, ino_line)], the unique
    line of the synthetic unit or not found. *)
Definition InoToCppLineOk (s : InoMapper) (sourceURI : lsp.DocumentURI) (line : Z)
  : option Z :=
  (λ found, Z.of_nat found.1)
    <$> list_find (λ l, l = mkInoLine (lsp.AsPath sourceURI) line) (toIno s).

(** Modelled from the spec: [is_preprocessed(cpp_line)], "true iff the line
    is a generated prototype". *)
Definition IsPreprocessedCppLine (s : InoMapper) (cppLine : Z) : bool :=
  bool_decide (CppToInoLine s cppLine = NotIno).

(** Modelled from the spec: a [.cpp] range is valid "only when both
    endpoints resolve to the same [.ino] file", with the adjustment "when a
    range ends exactly at a line break that only exists in the synthetic
    unit". *)
Definition CppToInoRangeOk (s : InoMapper) (cppRange : lsp.Range)
  : string * lsp.Range * option RangeErr :=
  let start := CppToInoLine s (lsp.Line (lsp.Start cppRange)) in
  let end_ := CppToInoLine s (lsp.Line (lsp.End_ cppRange)) in
  let inoRange endLine :=
    lsp.mkRange (lsp.mkPosition (Line start) (lsp.Character (lsp.Start cppRange)))
                (lsp.mkPosition endLine (lsp.Character (lsp.End_ cppRange))) in
  if bool_decide (File start = File end_) then (File start, inoRange (Line end_), None)
  else
    let check := CppToInoLine s (lsp.Line (lsp.End_ cppRange) - 1) in
    if (lsp.Character (lsp.End_ cppRange) =? 0) && bool_decide (File check = File start)
    then (File start, inoRange (Line check + 1), Some AdjustedRangeErr)
    else (File start, inoRange (Line end_), Some (InvalidRangeErr "invalid range conversion")).

Definition CppToInoRange (s : InoMapper) (cppRange : lsp.Range) : string * lsp.Range :=
  (CppToInoRangeOk s cppRange).1.

Fixpoint countNewlines (text : string) : nat :=
  match text with
  | EmptyString => O
  | String c t => (if Ascii.eqb c textutils.newline then 1 else 0) + countNewlines t
  end.

(** Modelled from the spec: the incremental edit of section 4.1.  The text
    of the unit is edited at the translated range, the lines that the edit
    joins leave the table, the lines it creates enter it, the later lines of
    the edited file shift by the difference, and the version is bumped.
    The table keeps no directives, so the edit is never reported dirty. *)
Definition ApplyTextChange (s : InoMapper) (inoURI : lsp.DocumentURI)
    (inoChange : lsp.TextDocumentContentChangeEvent) : InoMapper * bool :=
  let bumped text lines :=
    mkInoMapper (mkSourceRevision (Version (cppText s) + 1) text) lines in
  match lsp.Change_Range inoChange with
  | None => (bumped (Text (cppText s)) (toIno s), false)
  | Some inoRange =>
      match InoToCppLineOk s inoURI (lsp.Line (lsp.Start inoRange)),
            InoToCppLineOk s inoURI (lsp.Line (lsp.End_ inoRange)) with
      | Some cppStart, Some cppEnd =>
          let cppRange :=
            lsp.mkRange (lsp.mkPosition cppStart (lsp.Character (lsp.Start inoRange)))
                        (lsp.mkPosition cppEnd (lsp.Character (lsp.End_ inoRange))) in
          let text :=
            default (Text (cppText s))
              (textutils.ApplyTextChange (Text (cppText s)) cppRange
                 (lsp.Change_Text inoChange)) in
          let file := lsp.AsPath inoURI in
          let startLine := lsp.Line (lsp.Start inoRange) in
          let added := countNewlines (lsp.Change_Text inoChange) in
          let delta := Z.of_nat added - (lsp.Line (lsp.End_ inoRange) - startLine) in
          let shift l :=
            if bool_decide (File l = file) then mkInoLine file (Line l + delta) else l in
          let lines :=
            take (S (Z.to_nat cppStart)) (toIno s)
            ++ ((λ k, mkInoLine file (startLine + 1 + Z.of_nat k)) <$> seq 0 added)
            ++ (shift <$> drop (S (Z.to_nat cppEnd)) (toIno s)) in
          (bumped text lines, false)
      | _, _ => (bumped (Text (cppText s)) (toIno s), false)
      end
  end.

Global Instance mapper : Mapper InoMapper := {|
  sourcemapper.CppText := cppText;
  sourcemapper.InoToCppLineOk := InoToCppLineOk;
  sourcemapper.CppToInoRangeOk := CppToInoRangeOk;
  sourcemapper.CppToInoRange := CppToInoRange;
  sourcemapper.IsPreprocessedCppLine := IsPreprocessedCppLine;
  sourcemapper.ApplyTextChange := ApplyTextChange
|}.

Global Instance mapper_bumps_version : MapperBumpsVersion InoMapper.
Proof.
  constructor. intros m uri change. cbn. unfold ApplyTextChange.
  destruct (lsp.Change_Range change) as [inoRange|]; [|reflexivity].
  destruct (InoToCppLineOk m uri _); [|reflexivity].
  destruct (InoToCppLineOk m uri _); reflexivity.
Qed.

End linetable.

(** Every order of iteration gives the properties below; the scenarios run
    with the order of [map_to_list] and [elements]. *)
Global Instance go_range : GoRange := {|
  range_map := λ K _ _ A, map_to_list;
  range_set := elements;
  range_map_perm := λ K _ _ A m, reflexivity _;
  range_set_perm := λ s, reflexivity _
|}.

(** ** The sketch of the scenarios

    The sketch [Blink] with the tabs [Blink.ino] and [Tab2.ino]; its
    synthetic unit has four generated lines, then the two lines of
    [Blink.ino], a directive, and the line of [Tab2.ino]. *)
Module scenario.

Definition blinkIno : lsp.DocumentURI := lsp.NewDocumentURI "/home/user/Blink/Blink.ino".
Definition tab2Ino : lsp.DocumentURI := lsp.NewDocumentURI "/home/user/Blink/Tab2.ino".
Definition arduinoH : lsp.DocumentURI := lsp.NewDocumentURI "/opt/arduino/cores/Arduino.h".

Definition nl : string := String textutils.newline EmptyString.

Definition unitText : string :=
  "#include <Arduino.h>" +:+ nl +:+
  "void setup();" +:+ nl +:+
  "void loop();" +:+ nl +:+
  "#line 1 Blink.ino" +:+ nl +:+
  "void setup() {}" +:+ nl +:+
  "void loop() { helper(); }" +:+ nl +:+
  "#line 1 Tab2.ino" +:+ nl +:+
  "int helper() { return 1; }" +:+ nl.

Definition unitLines : list sourcemapper.InoLine :=
  [ sourcemapper.NotIno; sourcemapper.NotIno; sourcemapper.NotIno; sourcemapper.NotIno;
    sourcemapper.mkInoLine "/home/user/Blink/Blink.ino" 0;
    sourcemapper.mkInoLine "/home/user/Blink/Blink.ino" 1;
    sourcemapper.NotIno;
    sourcemapper.mkInoLine "/home/user/Blink/Tab2.ino" 0 ].

Definition unitMapper : linetable.InoMapper :=
  linetable.mkInoMapper (sourcemapper.mkSourceRevision 1 unitText) unitLines.

Definition openConn {Msg} : Conn Msg := mkConn [] false.

(** The handler once clangd runs, before any document is opened. *)
Definition started : InoHandler linetable.InoMapper :=
  mkInoHandler openConn (Some openConn)
    "/tmp/build/sketch" "/tmp/build/sketch/Blink.ino.cpp" 1
    [] false false None "/home/user/Blink" unitMapper 0 ∅ ∅.

Definition item (uri : lsp.DocumentURI) (text : string) : lsp.TextDocumentItem :=
  lsp.mkTextDocumentItem uri "ino" 1 text.

Definition blinkText : string :=
  "void setup() {}" +:+ nl +:+ "void loop() { helper(); }" +:+ nl.

Definition openBlink : Request :=
  mkRequest true (DidOpenParams (lsp.mkDidOpenTextDocumentParams (item blinkIno blinkText))).

Definition closeOf (uri : lsp.DocumentURI) : Request :=
  mkRequest true
    (DidCloseParams (lsp.mkDidCloseTextDocumentParams (lsp.mkTextDocumentIdentifier uri))).

Definition noReply : ClangdReply := (None, None).

(** The handler after [Blink.ino] was opened. *)
Definition blinkOpen : InoHandler linetable.InoMapper :=
  (HandleMessageFromIDE 0 openBlink noReply started).1.1.

Definition lineRange (line startChar endChar : Z) : lsp.Range :=
  lsp.mkRange (lsp.mkPosition line startChar) (lsp.mkPosition line endChar).

Definition functionSymbol (name : string) (line : Z)
    (children : list lsp.DocumentSymbol) : lsp.DocumentSymbol :=
  lsp.mkDocumentSymbol name "" false lsp.SKFunction
    (lineRange line 0 20) (lineRange line 5 10) children.

(** What clangd reports for the synthetic unit: the two prototypes on
    generated lines, the functions of [Blink.ino] (the second with a child)
    and the function of [Tab2.ino]. *)
Definition clangdSymbols : list lsp.DocumentSymbol :=
  [ functionSymbol "setup" 1 []; functionSymbol "loop" 2 [];
    functionSymbol "setup" 4 [];
    functionSymbol "loop" 5 [functionSymbol "lambda" 5 []; functionSymbol "proto" 2 []];
    functionSymbol "helper" 7 [] ].

Definition positionIn (uri : lsp.DocumentURI) (line character : Z)
  : lsp.TextDocumentPositionParams :=
  lsp.mkTextDocumentPositionParams (lsp.mkTextDocumentIdentifier uri)
    (lsp.mkPosition line character).

(** A completion request at [Blink.ino], line 1, and the answer of clangd:
    an item to insert on line 5 of the synthetic unit and an internal
    one. *)
Definition completionInBlink : Request :=
  mkRequest false (CompletionParams (positionIn blinkIno 1 14)).

Definition helperItem (line : Z) : lsp.CompletionItem :=
  lsp.mkCompletionItem "helper()" "helper"
    (Some (lsp.mkTextEdit (lineRange line 14 17) "helper")).

Definition internalItem : lsp.CompletionItem :=
  lsp.mkCompletionItem "__helper_impl" "__helper_impl" None.

Definition completionReply : ClangdReply :=
  (Some (CompletionListResult (lsp.mkCompletionList false [internalItem; helperItem 5])),
   None).

(** A hover request at [Blink.ino], line 1, and two answers of clangd: a
    hover on line 5 of the synthetic unit, and one with empty contents. *)
Definition hoverInBlink : Request :=
  mkRequest false (HoverParams (positionIn blinkIno 1 5)).

Definition loopHover (line : Z) : lsp.Hover :=
  lsp.mkHover (lsp.mkMarkupContent "plaintext" "function loop") (Some (lineRange line 5 9)).

Definition emptyHover : lsp.Hover :=
  lsp.mkHover (lsp.mkMarkupContent "plaintext" "") (Some (lineRange 5 5 9)).

(** The refresh of the symbols once clangd has reported [clangdSymbols],
    and what clangd reports after a function was added to the sketch. *)
Definition symbolsReply (symbols : list lsp.DocumentSymbol) : ClangdReply :=
  (Some (DocumentSymbolResult
           (lsp.mkDocumentSymbolArrayOrSymbolInformationArray (Some symbols) None)),
   None).

Definition symbolsLoaded : InoHandler linetable.InoMapper :=
  (refreshCppDocumentSymbols (symbolsReply clangdSymbols) blinkOpen).1.

Definition editedSymbols : list lsp.DocumentSymbol :=
  functionSymbol "blink" 3 [] :: clangdSymbols.

(** The head of the configuration baked into
    [createClangdFormatterConfig]; the properties hold for any text. *)
Definition bakedConfig : string :=
  "# Source: https://github.com/arduino/tooling-project-assets/tree/main/other/clang-format-configuration"
  +:+ nl +:+ "---" +:+ nl +:+ "AccessModifierOffset: -2" +:+ nl.

Definition server : ls.INOLanguageServer :=
  ls.mkINOLanguageServer "/home/user/Blink" (Some "/home/user/.clang-format").

Definition utilCpp : lsp.DocumentURI := lsp.NewDocumentURI "/opt/lib/util.cpp".

(** A file system in which the sketch folder has a [.clang-format] with
    the given permission, the user has configured another, and the file to
    format lies outside the sketch. *)
Definition sketchFS (readable : bool) : gmap string ls.Node :=
  <["/home/user/Blink" := ls.Dir]>
  (<["/home/user/Blink/.clang-format" := ls.File "BasedOnStyle: Google" readable]>
  (<["/home/user/.clang-format" := ls.File "BasedOnStyle: Mozilla" true]>
  (<["/opt/lib" := ls.Dir]>
  (<["/opt/lib/util.cpp" := ls.File "int f();" true]> ∅)))).

Definition insertAt (line : Z) (text : string) : lsp.TextDocumentContentChangeEvent :=
  lsp.mkTextDocumentContentChangeEvent (Some (lineRange line 0 0)) 0 text.

(** One [didChange] for [Blink.ino] that carries two content changes: a
    declaration inserted before line 0, then a comment inserted before what
    has become line 2. *)
Definition twoChanges : lsp.DidChangeTextDocumentParams :=
  lsp.mkDidChangeTextDocumentParams
    (lsp.mkVersionedTextDocumentIdentifier (lsp.mkTextDocumentIdentifier blinkIno) 2)
    [insertAt 0 ("int x;" +:+ nl); insertAt 2 ("// main loop" +:+ nl)].

(** The handler with [Blink.ino] open and diagnostics last reported for the
    given paths. *)
Definition reported (sourcePaths : gset string) : InoHandler linetable.InoMapper :=
  set_inoDocsWithDiagnostics sourcePaths blinkOpen.

Definition diagnosticAt (line : Z) (code : string) : lsp.Diagnostic :=
  lsp.mkDiagnostic (lineRange line 0 5) 1 code "diagnostic".

(** Diagnostics of clangd for the synthetic unit, and for a header outside
    the sketch. *)
Definition unitDiagnostics (diagnostics : list lsp.Diagnostic)
  : lsp.PublishDiagnosticsParams :=
  lsp.mkPublishDiagnosticsParams (lsp.NewDocumentURI "/tmp/build/sketch/Blink.ino.cpp")
    diagnostics.

Definition headerDiagnostics : lsp.PublishDiagnosticsParams :=
  lsp.mkPublishDiagnosticsParams arduinoH [diagnosticAt 10 "unused-includes"].

Definition blinkBatch : lsp.PublishDiagnosticsParams :=
  lsp.mkPublishDiagnosticsParams blinkIno [diagnosticAt 1 "undeclared_var_use"].

Definition notInoBatch : lsp.PublishDiagnosticsParams :=
  lsp.mkPublishDiagnosticsParams sourcemapper.NotInoURI [diagnosticAt 0 "redefinition"].

End scenario.

(** * Properties *)

(** ** Extensions *)

Lemma append_nil (t : string) : EmptyString +:+ t = t.
Proof. reflexivity. Qed.

Lemma append_cons (c : ascii) (s t : string) : String c s +:+ t = String c (s +:+ t).
Proof. reflexivity. Qed.

Lemma append_assoc (a b c : string) : (a +:+ b) +:+ c = a +:+ (b +:+ c).
Proof.
  induction a as [|x a IH]; [reflexivity|].
  by rewrite !append_cons, IH.
Qed.

Lemma no_sep_or_dot_app_dot (s t : string) :
  paths.no_sep_or_dot (s +:+ String "."%char t) = false.
Proof.
  induction s as [|c s IH].
  - reflexivity.
  - rewrite append_cons. cbn. rewrite IH. apply andb_false_r.
Qed.

Lemma Ext_app_ino_cpp (s : string) : paths.Ext (s +:+ ".ino.cpp") = ".cpp".
Proof.
  induction s as [|c s IH].
  - reflexivity.
  - rewrite append_cons. cbn [paths.Ext].
    rewrite (no_sep_or_dot_app_dot s "ino.cpp"), andb_false_r. exact IH.
Qed.

(** The synthetic unit [<build>/sketch/<name>.ino.cpp] of
    [initializeWorkbench] has the extension [.cpp]. *)
Lemma Ext_buildSketchCpp (buildSketchRoot sketchName : string) :
  paths.Ext (paths.Join buildSketchRoot (sketchName +:+ ".ino.cpp")) = ".cpp".
Proof.
  unfold paths.Join. rewrite <- !append_assoc. apply Ext_app_ino_cpp.
Qed.
(** ** Translation of the results of clangd *)

Section RouterProperties.
Context {InoMapper : Type} `{!sourcemapper.Mapper InoMapper} `{!GoRange}.
Implicit Types h : InoHandler InoMapper.

Lemma cpp2inoDocumentSymbols_body_Some (m : InoMapper) uri s o :
  cpp2inoDocumentSymbols_body m uri s = Some o →
  sourcemapper.IsPreprocessedCppLine m (lsp.Line (lsp.Start (lsp.Sym_Range s))) = false
  ∧ (sourcemapper.CppToInoRange m (lsp.Sym_Range s)).1
    = (sourcemapper.CppToInoRange m (lsp.Sym_SelectionRange s)).1
  ∧ (sourcemapper.CppToInoRange m (lsp.Sym_Range s)).1 = lsp.Unbox uri
  ∧ o = lsp.mkDocumentSymbol (lsp.Sym_Name s) (lsp.Sym_Detail s) (lsp.Sym_Deprecated s)
          (lsp.Sym_Kind s) (sourcemapper.CppToInoRange m (lsp.Sym_Range s)).2
          (sourcemapper.CppToInoRange m (lsp.Sym_SelectionRange s)).2
          (if negb (bool_decide (lsp.Ext uri = ".ino"))
              || (length (lsp.Sym_Children s) =? 0)%nat
           then lsp.Sym_Children s
           else omap (cpp2inoDocumentSymbols_body m uri) (lsp.Sym_Children s)).
Proof.
  destruct s as [name detail deprecated kind range selection children].
  cbn -[omap].
  destruct (sourcemapper.IsPreprocessedCppLine m _); [discriminate|].
  destruct (sourcemapper.CppToInoRange m range) as [inoFile inoRange].
  destruct (sourcemapper.CppToInoRange m selection) as [inoSelectionURI inoSelectionRange].
  cbn -[omap].
  case_bool_decide; [|discriminate]. cbn -[omap].
  case_bool_decide; [|discriminate]. cbn -[omap].
  intros [= <-]. done.
Qed.

Lemma cpp2inoDocumentSymbols_body_None (m : InoMapper) uri s :
  sourcemapper.IsPreprocessedCppLine m (lsp.Line (lsp.Start (lsp.Sym_Range s))) = true
  ∨ (sourcemapper.CppToInoRange m (lsp.Sym_Range s)).1
    ≠ (sourcemapper.CppToInoRange m (lsp.Sym_SelectionRange s)).1 →
  cpp2inoDocumentSymbols_body m uri s = None.
Proof.
  destruct s as [name detail deprecated kind range selection children].
  cbn -[omap]. intros [-> | Hne]; [reflexivity|].
  destruct (sourcemapper.IsPreprocessedCppLine m _); [reflexivity|].
  destruct (sourcemapper.CppToInoRange m range) as [inoFile inoRange].
  destruct (sourcemapper.CppToInoRange m selection) as [inoSelectionURI inoSelectionRange].
  cbn -[omap] in *. by rewrite bool_decide_eq_false_2.
Qed.

Lemma cpp2inoDocumentSymbols_ino h symbols uri :
  lsp.Ext uri = ".ino" →
  cpp2inoDocumentSymbols h symbols uri
  = omap (cpp2inoDocumentSymbols_body (sketchMapper h) uri) symbols.
Proof.
  intros Hext. unfold cpp2inoDocumentSymbols.
  rewrite bool_decide_eq_true_2 by done. cbn -[omap].
  destruct symbols; reflexivity.
Qed.

(** C4.  For a [textDocument/documentSymbol] response that is a
    [DocumentSymbol] array, on a request for a [.ino] document: the
    translation is [cpp2inoDocumentSymbols]; a symbol whose range starts on
    a generated (preprocessed) line, or whose range and selection range map
    to different files, contributes nothing to it; and every symbol of the
    translation is the image of a clangd symbol that passes both tests, its
    children being the translation of that symbol's children by the same
    function. *)
Theorem documentSymbol_response_filtered h method inoURI cppURI symbols infos :
  lsp.Ext inoURI = ".ino" →
  let m := sketchMapper h in
  let preprocessed s :=
    sourcemapper.IsPreprocessedCppLine m (lsp.Line (lsp.Start (lsp.Sym_Range s))) = true in
  let differentFiles s :=
    (sourcemapper.CppToInoRange m (lsp.Sym_Range s)).1
    ≠ (sourcemapper.CppToInoRange m (lsp.Sym_SelectionRange s)).1 in
  transformClangdResult h method inoURI cppURI
    (DocumentSymbolResult
       (lsp.mkDocumentSymbolArrayOrSymbolInformationArray (Some symbols) infos))
  = Ok (Some (IdeDocumentSymbols (cpp2inoDocumentSymbols h symbols inoURI)))
  ∧ (∀ before s after, symbols = before ++ s :: after →
       preprocessed s ∨ differentFiles s →
       cpp2inoDocumentSymbols h symbols inoURI
       = cpp2inoDocumentSymbols h (before ++ after) inoURI)
  ∧ (∀ o, o ∈ cpp2inoDocumentSymbols h symbols inoURI →
       ∃ s, s ∈ symbols ∧ ¬ preprocessed s ∧ ¬ differentFiles s
            ∧ lsp.Sym_Name o = lsp.Sym_Name s
            ∧ lsp.Sym_Kind o = lsp.Sym_Kind s
            ∧ lsp.Sym_Range o = (sourcemapper.CppToInoRange m (lsp.Sym_Range s)).2
            ∧ lsp.Sym_SelectionRange o
              = (sourcemapper.CppToInoRange m (lsp.Sym_SelectionRange s)).2
            ∧ lsp.Sym_Children o
              = cpp2inoDocumentSymbols h (lsp.Sym_Children s) inoURI).
Proof.
  intros Hext m preprocessed differentFiles. split; [reflexivity|]. split.
  - intros before s after -> Hdrop.
    rewrite !cpp2inoDocumentSymbols_ino by done.
    rewrite !omap_app. cbn [omap list_omap].
    by rewrite (cpp2inoDocumentSymbols_body_None _ _ _ Hdrop).
  - intros o. rewrite cpp2inoDocumentSymbols_ino by done.
    rewrite list_elem_of_omap. intros (s & Hs & Hbody).
    apply cpp2inoDocumentSymbols_body_Some in Hbody as (Hpre & Hsame & _ & ->).
    exists s. subst m preprocessed differentFiles. cbn.
    split_and!; try done.
    + rewrite Hpre. discriminate.
    + intros Hne. by apply Hne.
Qed.

(** The condition under which [transformClangdResult] maps ranges back. *)
Lemma cppToIno_false_on_ino h inoURI :
  lsp.Ext inoURI = ".ino" →
  paths.Ext (buildSketchCpp h) = ".cpp" →
  negb (bool_decide (inoURI = lsp.NilURI))
  && paths.EquivalentTo (lsp.AsPath inoURI) (buildSketchCpp h) = false.
Proof.
  intros Hino Hcpp. apply andb_false_iff. right.
  unfold paths.EquivalentTo. apply bool_decide_eq_false_2.
  intros Heq. unfold lsp.Ext, lsp.AsPath in *. rewrite Heq, Hcpp in Hino. discriminate.
Qed.

Lemma transformCompletionItems_acc h (cppToIno : bool) items acc :
  fold_left (transformCompletionItems_body h cppToIno) items acc
  = acc ++ transformCompletionItems h cppToIno items.
Proof.
  unfold transformCompletionItems.
  revert acc. induction items as [|item items IH] using rev_ind; intros acc.
  - cbn. by rewrite app_nil_r.
  - rewrite !fold_left_app. cbn [fold_left].
    rewrite IH. unfold transformCompletionItems_body.
    destruct (negb _); [|reflexivity].
    by rewrite app_assoc.
Qed.

(** The items that survive are those whose insert text does not start with
    an underscore, in their order; without the mapping back they are
    unchanged. *)
Lemma transformCompletionItems_filter h items :
  transformCompletionItems h false items
  = filter (λ item, paths.HasPrefix (lsp.CI_InsertText item) "_" = false) items.
Proof.
  induction items as [|item items IH]; [reflexivity|].
  unfold transformCompletionItems. cbn [fold_left].
  rewrite transformCompletionItems_acc, IH, filter_cons.
  unfold transformCompletionItems_body.
  destruct (paths.HasPrefix _ _) eqn:Hprefix; cbn.
  - by rewrite decide_False.
  - rewrite decide_True by done. by destruct (lsp.CI_TextEdit item).
Qed.

(** On a request for a [.ino] document the completion case filters the
    items and leaves their text edits in the coordinates of the synthetic
    unit. *)
Lemma transformClangdResult_completion_ino h method inoURI cppURI r :
  lsp.Ext inoURI = ".ino" →
  paths.Ext (buildSketchCpp h) = ".cpp" →
  transformClangdResult h method inoURI cppURI (CompletionListResult r)
  = Ok (Some (IdeCompletionList
       (lsp.mkCompletionList (lsp.CL_IsIncomplete r)
          (filter (λ item, paths.HasPrefix (lsp.CI_InsertText item) "_" = false)
                  (lsp.CL_Items r))))).
Proof.
  intros Hino Hcpp. unfold transformClangdResult.
  by rewrite cppToIno_false_on_ino, transformCompletionItems_filter.
Qed.

(** On a request for a [.ino] document the hover case returns [nil] for
    empty contents and the hover of clangd, range included, otherwise. *)
Lemma transformClangdResult_hover_ino h method inoURI cppURI r :
  lsp.Ext inoURI = ".ino" →
  paths.Ext (buildSketchCpp h) = ".cpp" →
  transformClangdResult h method inoURI cppURI (HoverResult r)
  = if (String.length (lsp.MC_Value (lsp.Hover_Contents r)) =? 0)%nat
    then Ok None else Ok (Some (IdeHover r)).
Proof.
  intros Hino Hcpp. unfold transformClangdResult.
  by rewrite cppToIno_false_on_ino.
Qed.

(** ** Notifications of documents that are not tracked *)

(** A [textDocument/didClose] for a document that is not tracked leaves
    the tracked documents and the counter as they are, and the notification
    is then sent to clangd as it came: in [HandleMessageFromIDE] the branch
    for the error of [didClose] is empty, so [params] still holds the
    parameters of the IDE when the message is forwarded. *)
Lemma HandleMessageFromIDE_didClose_untracked now reply h p conn :
  ClangdConn h = Some conn →
  closed conn = false →
  docs h !! lsp.Canonical (lsp.Ident_URI (lsp.DidClose_TextDocument p)) = None →
  ∃ h' tasks,
    HandleMessageFromIDE now (mkRequest true (DidCloseParams p)) reply h
    = (h', tasks, Replied None None)
    ∧ ClangdConn h'
      = Some (mkConn (sent conn ++ [mkRequest true (DidCloseParams p)]) false)
    ∧ docs h' = docs h
    ∧ sketchTrackedFilesCount h' = sketchTrackedFilesCount h.
Proof.
  intros Hconn Hopen Hdoc.
  unfold HandleMessageFromIDE. rewrite Hconn. cbn [ReqParams].
  unfold didClose. rewrite Hdoc.
  unfold HandleMessageFromIDE_forward. rewrite Hconn. cbn [Notif].
  unfold Notify. rewrite Hopen. cbn.
  destruct (buildSketchSymbolsLoad h) eqn:Hload; cbn; rewrite ?Hload; cbn;
    destruct (buildSketchSymbolsCheck h) eqn:Hcheck; cbn; rewrite ?Hcheck; cbn;
    eexists _, _; split_and!; reflexivity.
Qed.

(** ** Check of the top-level symbols *)

Lemma scheduleRebuildEnvironment_buildSketchSymbols now h :
  buildSketchSymbols (scheduleRebuildEnvironment now h) = buildSketchSymbols h.
Proof. reflexivity. Qed.

(** The loop compares the old symbols with the new ones index by index
    and schedules a rebuild at the first pair of different names. *)
Lemma checkCppDocumentSymbols_loop_spec now i oldSymbols h :
  (∀ k, (k < length oldSymbols)%nat → is_Some (buildSketchSymbols h !! (i + k)%nat)) →
  ((∃ k o n, oldSymbols !! k = Some o ∧ buildSketchSymbols h !! (i + k)%nat = Some n
             ∧ lsp.Sym_Name o ≠ lsp.Sym_Name n)
   ∧ checkCppDocumentSymbols_loop now i oldSymbols h
     = (scheduleRebuildEnvironment now h, Ok None))
  ∨ ((∀ k o n, oldSymbols !! k = Some o → buildSketchSymbols h !! (i + k)%nat = Some n →
               lsp.Sym_Name o = lsp.Sym_Name n)
     ∧ checkCppDocumentSymbols_loop now i oldSymbols h = (h, Ok None)).
Proof.
  revert i. induction oldSymbols as [|old rest IH]; intros i Hlen.
  - right. split; [|reflexivity]. intros k o n Hk. by rewrite lookup_nil in Hk.
  - cbn [checkCppDocumentSymbols_loop].
    destruct (Hlen 0%nat) as [new Hnew]; [cbn; lia|].
    rewrite Nat.add_0_r in Hnew. rewrite Hnew.
    case_bool_decide as Hname; cbn [negb].
    + destruct (IH (S i)) as [[(k & o & n & Ho & Hn & Hne) Hloop] | [Hall Hloop]].
      * intros k Hk. replace (S i + k)%nat with (i + S k)%nat by lia.
        apply Hlen. cbn. lia.
      * left. split; [|exact Hloop].
        exists (S k), o, n. replace (i + S k)%nat with (S i + k)%nat by lia. done.
      * right. split; [|exact Hloop].
        intros [|k] o n Ho Hn.
        -- rewrite Nat.add_0_r in Hn. cbn in Ho. congruence.
        -- replace (i + S k)%nat with (S i + k)%nat in Hn by lia. by eapply Hall.
    + left. split; [|reflexivity].
      exists 0%nat, old, new. rewrite Nat.add_0_r. done.
Qed.

(** The check differs exactly when the lists of names differ. *)
Lemma symbolsDiffer_names (old new : list lsp.DocumentSymbol) :
  symbolsDiffer old new ↔ lsp.Sym_Name <$> old ≠ lsp.Sym_Name <$> new.
Proof.
  split.
  - intros [Hlen | (i & o & n & Ho & Hn & Hne)] Heq.
    + apply Hlen. by rewrite <- (length_fmap lsp.Sym_Name old), Heq, length_fmap.
    + apply Hne.
      assert ((lsp.Sym_Name <$> old) !! i = (lsp.Sym_Name <$> new) !! i) as Hi
        by by rewrite Heq.
      rewrite !list_lookup_fmap, Ho, Hn in Hi. by injection Hi.
  - intros Hne. destruct (decide (length old = length new)) as [Hlen|Hlen]; [|by left].
    right.
    assert (¬ ∀ i, (lsp.Sym_Name <$> old) !! i = (lsp.Sym_Name <$> new) !! i) as Hnot.
    { intros Hall. apply Hne. by apply list_eq. }
    revert new Hlen Hne Hnot.
    induction old as [|o old IH]; intros [|n new] Hlen Hne Hnot; try discriminate.
    + by destruct Hne.
    + destruct (decide (lsp.Sym_Name o = lsp.Sym_Name n)) as [Heq|Hdiff].
      * destruct (IH new) as (i & o' & n' & Ho & Hn & Hd).
        -- by injection Hlen.
        -- intros Hmap. apply Hne. cbn. by rewrite Heq, Hmap.
        -- intros Hall. apply Hnot. intros [|i]; cbn; [by rewrite Heq | apply Hall].
        -- by exists (S i), o', n'.
      * by exists 0%nat, o, n.
Qed.

(** With clangd answering the [DocumentSymbol] array [symbols], the
    refresh stores the function symbols among them. *)
Lemma refreshCppDocumentSymbols_loads h conn symbols infos :
  ClangdConn h = Some conn →
  closed conn = false →
  paths.Ext (buildSketchCpp h) = ".cpp" →
  ∃ h',
    refreshCppDocumentSymbols
      (Some (DocumentSymbolResult
               (lsp.mkDocumentSymbolArrayOrSymbolInformationArray (Some symbols) infos)),
       None) h
    = (h', Ok None)
    ∧ buildSketchSymbols h'
      = filter (λ symbol, lsp.Sym_Kind symbol = lsp.SKFunction) symbols
    ∧ rebuildSketchDeadline h' = rebuildSketchDeadline h.
Proof.
  intros Hconn Hopen Hext. unfold refreshCppDocumentSymbols, SendRequest.
  rewrite Hconn, Hopen. cbn.
  unfold cpp2inoDocumentSymbols, lsp.Ext, lsp.NewDocumentURIFromPath. cbn.
  rewrite Hext. cbn. eexists. split_and!; reflexivity.
Qed.

(** C5.  With the check flag raised, a message that clangd takes without
    error queues the check and lowers the flag.  The check loads the
    function symbols that clangd reports and compares them with the
    previous list: if the lengths differ or some index holds symbols with
    different names, the rebuild deadline is set; otherwise it is left as it
    was, as it is in particular for a new list with the length and the
    name at every index of the old one. *)
Theorem symbols_check_schedules_rebuild now h conn symbols infos :
  ClangdConn h = Some conn →
  closed conn = false →
  paths.Ext (buildSketchCpp h) = ".cpp" →
  let old := buildSketchSymbols h in
  let new := filter (λ symbol, lsp.Sym_Kind symbol = lsp.SKFunction) symbols in
  (∀ req reply params inoURI cppURI,
     buildSketchSymbolsCheck h = true →
     (Notif req = false → reply.2 = None) →
     ∃ h' tasks answer,
       HandleMessageFromIDE_forward req reply params inoURI cppURI h = (h', tasks, answer)
       ∧ CheckCppDocumentSymbols ∈ tasks
       ∧ buildSketchSymbolsCheck h' = false)
  ∧ ∃ h',
      checkCppDocumentSymbols now
        (Some (DocumentSymbolResult
                 (lsp.mkDocumentSymbolArrayOrSymbolInformationArray (Some symbols) infos)),
         None) h
      = (h', Ok None)
      ∧ buildSketchSymbols h' = new
      ∧ (symbolsDiffer old new → rebuildSketchDeadline h' = Some (now + rebuildDelay))
      ∧ (¬ symbolsDiffer old new → rebuildSketchDeadline h' = rebuildSketchDeadline h)
      ∧ (length old = length new →
         (∀ i o n, old !! i = Some o → new !! i = Some n →
                   lsp.Sym_Name o = lsp.Sym_Name n) →
         rebuildSketchDeadline h' = rebuildSketchDeadline h).
Proof.
  intros Hconn Hopen Hext old new. split.
  - intros req [result err] params inoURI cppURI Hflag Herr.
    unfold HandleMessageFromIDE_forward. rewrite Hconn.
    unfold Notify, SendRequest. rewrite Hopen.
    destruct (Notif req).
    + cbn. destruct (buildSketchSymbolsLoad h); cbn; rewrite Hflag; cbn;
        eexists _, _, _; split_and!; try reflexivity; set_solver.
    + cbn in Herr. rewrite (Herr eq_refl). cbn.
      destruct (buildSketchSymbolsLoad h); cbn; rewrite Hflag; cbn;
        (destruct result as [r|]; [destruct (transformClangdResult _ _ _ _ r)|]);
        eexists _, _, _; split_and!; try reflexivity; set_solver.
  - destruct (refreshCppDocumentSymbols_loads h conn symbols infos Hconn Hopen Hext)
      as (h1 & Hrefresh & Hsymbols & Hdeadline).
    unfold checkCppDocumentSymbols. rewrite Hrefresh. fold old. rewrite Hsymbols. fold new.
    destruct (decide (length old = length new)) as [Hlen|Hlen].
    + rewrite (proj2 (Nat.eqb_eq _ _) Hlen). cbn [negb].
      destruct (checkCppDocumentSymbols_loop_spec now 0 old h1)
        as [[(k & o & n & Ho & Hn & Hne) Hloop] | [Hall Hloop]].
      * intros k Hk. rewrite Hsymbols. apply lookup_lt_is_Some. fold new. lia.
      * rewrite Hsymbols in Hn. cbn in Hn.
        exists (scheduleRebuildEnvironment now h1). split_and!; try done.
        -- intros Hsame. exfalso. apply Hsame. right. by exists k, o, n.
        -- intros _ Hsame. exfalso. apply Hne. by eapply Hsame.
      * rewrite Hsymbols in Hall. cbn in Hall.
        exists h1. split_and!; try done.
        intros [? | (k & o & n & Ho & Hn & Hne)]; [done|].
        exfalso. apply Hne. by eapply Hall.
    + rewrite (proj2 (Nat.eqb_neq _ _) Hlen). cbn [negb].
      exists (scheduleRebuildEnvironment now h1). split_and!; try done.
      intros Hsame. exfalso. apply Hsame. by left.
Qed.

End RouterProperties.



(** ** Versions of the synthetic unit *)

Section VersioningProperties.
Context {InoMapper : Type} `{!sourcemapper.Mapper InoMapper} `{!GoRange}
        `{!sourcemapper.MapperBumpsVersion InoMapper}.
Implicit Types h : InoHandler InoMapper.

(** The loop of [didChange] applies every change to the source map, one
    after the other, and so bumps the version once per change; it builds
    one translated change per change, with the same text and range length,
    and with the range that the source map gives for the range of the
    change when its turn comes. *)
Lemma didChange_changes_spec now uri changes cppChanges h :
  changesTranslate (sketchMapper h) uri changes = true →
  ∃ h' translated,
    didChange_changes now uri changes cppChanges h = (h', Ok (inl (cppChanges ++ translated)))
    ∧ unitVersion h' = unitVersion h + Z.of_nat (length changes)
    ∧ lsp.Change_Text <$> translated = lsp.Change_Text <$> changes
    ∧ lsp.Change_RangeLength <$> translated = lsp.Change_RangeLength <$> changes
    ∧ Forall (λ change, is_Some (lsp.Change_Range change)) translated
    ∧ ClangdConn h' = ClangdConn h
    ∧ buildSketchCpp h' = buildSketchCpp h
    ∧ docs h' = docs h
    ∧ translated = translatedChanges (sketchMapper h) uri changes
    ∧ sketchMapper h' = mapperAfter (sketchMapper h) uri changes.
Proof.
  revert cppChanges h. induction changes as [|change rest IH]; intros cppChanges h Hok.
  - exists h, []. rewrite app_nil_r. cbn. split_and!; try done. lia.
  - cbn in Hok |- *.
    destruct (lsp.Change_Range change) as [inoRange|] eqn:Hino; [|discriminate].
    destruct (sourcemapper.InoToCppLSPRangeOk (sketchMapper h) uri inoRange)
      as [cppRange|] eqn:Hrange; [|discriminate].
    pose proof (sourcemapper.ApplyTextChange_Version (sketchMapper h) uri change) as Hbump.
    destruct (sourcemapper.ApplyTextChange (sketchMapper h) uri change)
      as [mapper mapperDirty] eqn:Happly.
    cbn in Hok, Hbump.
    match goal with
    | |- context [didChange_changes _ _ _ _ ?next] => set (h1 := next)
    end.
    assert (sketchMapper h1 = mapper) as Hmapper by (subst h1; by destruct (_ || _)).
    destruct (IH (cppChanges ++
                    [lsp.mkTextDocumentContentChangeEvent (Some cppRange)
                       (lsp.Change_RangeLength change) (lsp.Change_Text change)]) h1)
      as (h' & translated & Hrun & Hversion & Htext & Hlen & Hranges & Hconn & Hcpp & Hdocs
          & Htranslated & Hafter).
    { by rewrite Hmapper. }
    exists h', (lsp.mkTextDocumentContentChangeEvent (Some cppRange)
                  (lsp.Change_RangeLength change) (lsp.Change_Text change) :: translated).
    rewrite Hrun, <- app_assoc. cbn. split_and!; try done.
    + rewrite Hversion. unfold unitVersion. rewrite Hmapper, Hbump. lia.
    + by rewrite Htext.
    + by rewrite Hlen.
    + constructor; [by eexists | done].
    + rewrite Hconn. subst h1. by destruct (_ || _).
    + rewrite Hcpp. subst h1. by destruct (_ || _).
    + rewrite Hdocs. subst h1. by destruct (_ || _).
    + rewrite Htranslated, Hmapper, Hrange. done.
    + by rewrite Hafter, Hmapper.
Qed.

(** One [textDocument/didChange] for a tracked [.ino] document whose
    changes translate: one message goes to clangd, for the synthetic unit,
    at the version reached after all the changes, and it carries the
    translated changes, each with a range. *)
Lemma HandleMessageFromIDE_didChange_ino now notif reply h conn p :
  ClangdConn h = Some conn →
  closed conn = false →
  is_Some (docs h !! lsp.Canonical (didChangeURI p)) →
  lsp.Ext (didChangeURI p) = ".ino" →
  changesTranslate (sketchMapper h) (didChangeURI p) (lsp.DidChange_ContentChanges p)
  = true →
  ∃ h' cppReq,
    HandleMessageFromIDE now (mkRequest notif (DidChangeParams p)) reply h
    = (h', [], Replied None None)
    ∧ ClangdConn h'
      = Some (mkConn (sent conn ++ [mkRequest true (DidChangeParams cppReq)]) false)
    ∧ unitVersion h'
      = unitVersion h + Z.of_nat (length (lsp.DidChange_ContentChanges p))
    ∧ lsp.VIdent_Version (lsp.DidChange_TextDocument cppReq) = unitVersion h'
    ∧ didChangeURI cppReq = lsp.NewDocumentURIFromPath (buildSketchCpp h)
    ∧ lsp.Change_Text <$> lsp.DidChange_ContentChanges cppReq
      = lsp.Change_Text <$> lsp.DidChange_ContentChanges p
    ∧ lsp.Change_RangeLength <$> lsp.DidChange_ContentChanges cppReq
      = lsp.Change_RangeLength <$> lsp.DidChange_ContentChanges p
    ∧ buildSketchCpp h' = buildSketchCpp h
    ∧ lsp.DidChange_ContentChanges cppReq
      = translatedChanges (sketchMapper h) (didChangeURI p)
          (lsp.DidChange_ContentChanges p)
    ∧ Forall (λ change, is_Some (lsp.Change_Range change))
             (lsp.DidChange_ContentChanges cppReq)
    ∧ sketchMapper h'
      = mapperAfter (sketchMapper h) (didChangeURI p) (lsp.DidChange_ContentChanges p).
Proof.
  intros Hconn Hopen [trackedDoc Hdoc] Hext Hok.
  unfold HandleMessageFromIDE. rewrite Hconn. cbn [ReqParams].
  unfold didChange. fold (didChangeURI p). rewrite Hdoc.
  rewrite (bool_decide_eq_true_2 _ Hext).
  match goal with
  | |- context [didChange_changes _ _ _ _ ?next] => set (h0 := next)
  end.
  destruct (didChange_changes_spec now (didChangeURI p)
              (lsp.DidChange_ContentChanges p) [] h0 Hok)
    as (h' & translated & Hrun & Hversion & Htext & Hlen & Hranges & Hconn' & Hcpp & _
        & Htranslated & Hafter).
  rewrite Hrun. cbn [app]. unfold Notify. rewrite Hopen.
  eexists _, _. split; [reflexivity|]. cbn.
  split_and!; try done.
  unfold didChangeURI. cbn. by rewrite Hcpp.
Qed.

Lemma versionsAfter_length version ps : length (versionsAfter version ps) = length ps.
Proof.
  revert version. induction ps as [|p ps IH]; intros version; cbn; [done|].
  by rewrite IH.
Qed.

(** C2, as amended.  Over a run of [textDocument/didChange] notifications
    for tracked [.ino] documents whose content changes all translate, each
    notification bumps the version of the synthetic unit once per content
    change it carries (by exactly 1 only when it carries one change): after
    the run the version is the initial one plus the total number of content
    changes.  Each notification makes one [didChange] go to clangd, for the
    synthetic unit, which carries all the translated changes of the
    notification in order, at the version reached after them: every
    forwarded change has the text and the range length of the [.ino] change
    and, as its range, the translation that the source map gives for the
    range of the [.ino] change when its turn comes. *)
Theorem didChange_bumps_version_per_change now ps h conn :
  ClangdConn h = Some conn →
  closed conn = false →
  didChangesTranslate now ps h = true →
  ∃ cppReqs,
    ClangdConn (didChangeAll now ps h)
    = Some (mkConn (sent conn ++ ((λ cppReq, mkRequest true (DidChangeParams cppReq))
                                  <$> cppReqs)) false)
    ∧ unitVersion (didChangeAll now ps h)
      = unitVersion h
        + Z.of_nat (length (concat (lsp.DidChange_ContentChanges <$> ps)))
    ∧ (λ cppReq, lsp.VIdent_Version (lsp.DidChange_TextDocument cppReq)) <$> cppReqs
      = versionsAfter (unitVersion h) ps
    ∧ Forall2
        (λ p cppReq,
           didChangeURI cppReq = lsp.NewDocumentURIFromPath (buildSketchCpp h)
           ∧ lsp.Change_Text <$> lsp.DidChange_ContentChanges cppReq
             = lsp.Change_Text <$> lsp.DidChange_ContentChanges p
           ∧ lsp.Change_RangeLength <$> lsp.DidChange_ContentChanges cppReq
             = lsp.Change_RangeLength <$> lsp.DidChange_ContentChanges p)
        ps cppReqs
    ∧ lsp.DidChange_ContentChanges <$> cppReqs = translatedRun (sketchMapper h) ps
    ∧ Forall (λ cppReq, Forall (λ change, is_Some (lsp.Change_Range change))
                               (lsp.DidChange_ContentChanges cppReq))
             cppReqs.
Proof.
  revert h conn. induction ps as [|p ps IH]; intros h conn Hconn Hopen Hok.
  - exists []. cbn. rewrite app_nil_r. split_and!; try done.
    + by destruct conn; cbn in *; subst.
    + lia.
  - cbn in Hok. apply andb_true_iff in Hok as [Hok Hrest].
    apply andb_true_iff in Hok as [Hok Htranslate].
    apply andb_true_iff in Hok as [Htracked Hext].
    apply bool_decide_eq_true_1 in Htracked, Hext.
    destruct (HandleMessageFromIDE_didChange_ino now true (None, None) h conn p
                Hconn Hopen Htracked Hext Htranslate)
      as (h1 & cppReq & Hrun & Hconn1 & Hversion1 & Hreq & Huri & Htext & Hlen & Hcpp
          & Htranslated & Hranges & Hafter).
    cbn [didChangeAll]. rewrite Hrun in Hrest |- *. cbn [fst] in Hrest |- *.
    destruct (IH h1 _ Hconn1 eq_refl Hrest)
      as (cppReqs & Hconns & Hversions & Hsent & Hall & Hchanges & Hsome).
    exists (cppReq :: cppReqs). cbn [sent] in Hconns. split_and!.
    + rewrite Hconns. cbn. by rewrite <- app_assoc.
    + rewrite Hversions, Hversion1. cbn. rewrite length_app. lia.
    + cbn. rewrite Hreq, Hsent, Hversion1. done.
    + constructor; [done|]. by rewrite Hcpp in Hall.
    + cbn. by rewrite Htranslated, Hchanges, Hafter.
    + by constructor.
Qed.

End VersioningProperties.


(** ** Diagnostics fan-out *)

Section FanOutProperties.
Context {InoMapper : Type} `{!sourcemapper.Mapper InoMapper} `{!GoRange}.
Implicit Types h : InoHandler InoMapper.
Implicit Types b m : lsp.PublishDiagnosticsParams.

Lemma append_inj (prefix s t : string) : prefix +:+ s = prefix +:+ t → s = t.
Proof.
  induction prefix as [|c prefix IH]; [done|].
  rewrite !append_cons. intros [= Heq]. by apply IH.
Qed.

(** The test of the fan-out on the text of the URI is the test on the
    URI. *)
Lemma URIString_NotInoURI b :
  lsp.URIString (lsp.PD_URI b) = lsp.URIString sourcemapper.NotInoURI ↔ isNotIno b.
Proof.
  unfold isNotIno, lsp.URIString. split.
  - intros Heq%append_inj. destruct (lsp.PD_URI b). cbn in Heq. by subst.
  - by intros ->.
Qed.

(** The publishing loop, with the connection to the IDE open: every batch
    but those of the sentinel is sent, in order; the batches for [.ino]
    documents are recorded; a batch of the sentinel or of a [.ino] document
    asks for the clearing pass. *)
Lemma FromClangd_publish_spec batches (cleanUp : bool) (docsWith : gset string) h :
  closed (StdioConn h) = false →
  ∃ h' (cleanUp' : bool),
    FromClangd_publish batches cleanUp docsWith h
    = (h', cleanUp', docsWith ∪ freshInoDocs batches, None)
    ∧ (cleanUp' = true ↔
       cleanUp = true ∨ Exists (λ b, isNotIno b ∨ isIno b) batches)
    ∧ sent (StdioConn h')
      = sent (StdioConn h) ++ filter (λ b, ¬ isNotIno b) batches
    ∧ closed (StdioConn h') = false
    ∧ inoDocsWithDiagnostics h' = inoDocsWithDiagnostics h.
Proof.
  revert cleanUp docsWith h.
  induction batches as [|b batches IH]; intros cleanUp docsWith h Hopen.
  - exists h, cleanUp. cbn. unfold freshInoDocs. cbn.
    rewrite app_nil_r, (right_id_L ∅ (∪)). split_and!; try done.
    split; [by left | intros [? | Hex]; [done | by apply Exists_nil in Hex]].
  - cbn [FromClangd_publish]. case_bool_decide as Hsentinel.
    + apply URIString_NotInoURI in Hsentinel.
      destruct (IH true docsWith h Hopen)
        as (h' & cleanUp' & Hrun & Hflag & Hsent & Hopen' & Hdocs).
      exists h', cleanUp'. rewrite Hrun.
      unfold freshInoDocs in *. rewrite !filter_cons.
      rewrite decide_False by tauto. rewrite decide_False by tauto.
      split_and!; try done.
      rewrite Hflag. split; [intros _ | by left].
      right. apply Exists_cons. left. by left.
    + rewrite URIString_NotInoURI in Hsentinel.
      unfold Notify.
      set (isIno_b := bool_decide (lsp.Ext (lsp.PD_URI b) = ".ino")).
      set (h0 := if isIno_b && existsb isUndeclaredVarUse (lsp.PD_Diagnostics b)
                 then set_buildSketchSymbolsCheck true h else h).
      assert (StdioConn h0 = StdioConn h) as Hconn0 by (subst h0; by destruct (_ && _)).
      assert (inoDocsWithDiagnostics h0 = inoDocsWithDiagnostics h) as Hdocs0
        by (subst h0; by destruct (_ && _)).
      rewrite Hconn0, Hopen.
      destruct (IH (if isIno_b then true else cleanUp)
                  (if isIno_b then {[lsp.Canonical (lsp.PD_URI b)]} ∪ docsWith
                   else docsWith)
                  (set_StdioConn (mkConn (sent (StdioConn h) ++ [b]) false) h0) eq_refl)
        as (h' & cleanUp' & Hrun & Hflag & Hsent & Hopen' & Hdocs).
      exists h', cleanUp'. rewrite Hrun. cbn [StdioConn set_StdioConn sent] in Hsent.
      rewrite filter_cons, decide_True by done.
      rewrite Hsent, <- app_assoc. cbn [app].
      unfold freshInoDocs in *. rewrite filter_cons.
      subst isIno_b. case_bool_decide as Hino.
      * rewrite decide_True by done. rewrite fmap_cons, list_to_set_cons. cbn [compose].
        split_and!; try done.
        -- do 2 f_equal. apply set_eq. intros path. rewrite !elem_of_union. tauto.
        -- rewrite Hflag. split; [intros _ | by left]. right. apply Exists_cons.
           left. by right.
        -- by rewrite Hdocs.
      * rewrite decide_False by (unfold isIno; tauto).
        split_and!; try done.
        rewrite Hflag, Exists_cons. unfold isIno at 2. tauto.
Qed.

(** The clearing loop, with the connection to the IDE open: an empty batch
    is sent for every path without a fresh batch, in order. *)
Lemma FromClangd_cleanUp_spec sourcePaths (docsWith : gset string) h :
  closed (StdioConn h) = false →
  ∃ h',
    FromClangd_cleanUp sourcePaths docsWith h = (h', None)
    ∧ sent (StdioConn h')
      = sent (StdioConn h) ++ (emptyBatch <$> filter (λ path, path ∉ docsWith) sourcePaths)
    ∧ closed (StdioConn h') = false.
Proof.
  revert h. induction sourcePaths as [|sourcePath rest IH]; intros h Hopen.
  - exists h. cbn. by rewrite app_nil_r.
  - cbn [FromClangd_cleanUp]. rewrite filter_cons. case_bool_decide as Hin.
    + rewrite decide_False by tauto. by apply IH.
    + rewrite decide_True by done. unfold Notify. rewrite Hopen.
      destruct (IH (set_StdioConn
                      (mkConn (sent (StdioConn h)
                               ++ [lsp.mkPublishDiagnosticsParams
                                     (lsp.NewDocumentURI sourcePath) []]) false) h)
                  eq_refl) as (h' & Hrun & Hsent & Hopen').
      exists h'. rewrite Hrun. split_and!; try done.
      rewrite Hsent. cbn. by rewrite <- app_assoc.
Qed.

(** What one [textDocument/publishDiagnostics] of clangd makes the handler
    send to the IDE, once the diagnostics are converted into [batches] and
    with the connection to the IDE open: the batches but those of the
    sentinel, then, if the clearing pass runs, an empty batch for every
    document of the previous set without a fresh batch, the set being
    replaced by the fresh [.ino] documents. *)
Lemma FromClangd_spec p h batches :
  closed (StdioConn h) = false →
  cpp2inoDiagnostics h p = (batches, None) →
  ∃ h' stale,
    FromClangd p h = (h', None)
    ∧ sent (StdioConn h')
      = sent (StdioConn h) ++ filter (λ b, ¬ isNotIno b) batches ++ stale
    ∧ (cleanUpTriggered batches →
       stale ≡ₚ emptyBatch
                <$> filter (λ path, path ∉ freshInoDocs batches)
                      (elements (inoDocsWithDiagnostics h))
       ∧ inoDocsWithDiagnostics h' = freshInoDocs batches)
    ∧ (¬ cleanUpTriggered batches →
       stale = [] ∧ inoDocsWithDiagnostics h' = inoDocsWithDiagnostics h).
Proof.
  intros Hopen Hconv. unfold FromClangd. rewrite Hconv.
  destruct (FromClangd_publish_spec batches (length batches =? 0)%nat ∅ h Hopen)
    as (h1 & cleanUp & Hrun & Hflag & Hsent & Hopen1 & Hdocs).
  rewrite Hrun. rewrite (left_id_L ∅ (∪)).
  assert (cleanUp = true ↔ cleanUpTriggered batches) as Htriggered.
  { rewrite Hflag. unfold cleanUpTriggered. rewrite Nat.eqb_eq.
    by rewrite length_zero_iff_nil. }
  destruct cleanUp.
  - destruct (FromClangd_cleanUp_spec (range_set (inoDocsWithDiagnostics h1))
                (freshInoDocs batches) h1 Hopen1) as (h2 & Hclean & Hsent2 & Hopen2).
    rewrite Hclean. eexists _, _. split; [reflexivity|]. cbn.
    rewrite Hsent2, Hsent, <- app_assoc. split; [reflexivity|]. split.
    + intros _. split; [|reflexivity].
      rewrite Hdocs. apply fmap_Permutation.
      by rewrite range_set_perm.
    + intros Hnot. exfalso. apply Hnot. by apply Htriggered.
  - exists h1, []. rewrite app_nil_r. split_and!; try done.
    intros Hyes. apply Htriggered in Hyes. discriminate.
Qed.

Lemma elem_of_freshInoDocs path batches :
  path ∈ freshInoDocs batches
  ↔ ∃ b, b ∈ batches ∧ ¬ isNotIno b ∧ isIno b ∧ lsp.Canonical (lsp.PD_URI b) = path.
Proof.
  unfold freshInoDocs. rewrite elem_of_list_to_set, list_elem_of_fmap.
  split.
  - intros (b & -> & Hb). apply list_elem_of_filter in Hb as [[? ?] ?]. by exists b.
  - intros (b & Hb & Hsentinel & Hino & <-). exists b. split; [done|].
    by apply list_elem_of_filter.
Qed.

Lemma elem_of_stale m (previous fresh : gset string) (stale : list lsp.PublishDiagnosticsParams) :
  stale ≡ₚ emptyBatch <$> filter (λ path, path ∉ fresh) (elements previous) →
  m ∈ stale ↔ (∃ path, path ∈ previous ∧ (path ∉ fresh) ∧ m = emptyBatch path).
Proof.
  intros ->. rewrite list_elem_of_fmap. split.
  - intros (path & -> & Hpath). apply list_elem_of_filter in Hpath as [? ?%elem_of_elements].
    by exists path.
  - intros (path & ? & ? & ->). exists path. split; [done|].
    apply list_elem_of_filter. split; [done|]. by apply elem_of_elements.
Qed.

(** C3, as amended.  For a [textDocument/publishDiagnostics] of clangd
    that converts without error into [batches], with the connection to the
    IDE open and a previous set of [.ino] documents: the fresh batches are
    published first (all but those of the sentinel), in order.  If there is
    no batch, or one for the sentinel or for a [.ino] document, then every
    path of the previous set without a fresh batch is sent an empty batch,
    the set is overwritten with the fresh [.ino] documents, every batch
    received for a path of the previous set without a fresh batch is empty,
    and, when all the fresh batches are for [.ino] documents, the IDE
    receives batches exactly for the union of the previous and the new set.
    Otherwise (all the batches are for other documents) nothing is cleared
    and the set is left as it was. *)
Theorem FromClangd_clears_stale_diagnostics p h batches :
  closed (StdioConn h) = false →
  cpp2inoDiagnostics h p = (batches, None) →
  (∀ path, path ∈ inoDocsWithDiagnostics h → paths.Ext path = ".ino") →
  let previous := inoDocsWithDiagnostics h in
  let fresh := filter (λ b, ¬ isNotIno b) batches in
  ∃ h' stale,
    FromClangd p h = (h', None)
    ∧ sent (StdioConn h') = sent (StdioConn h) ++ fresh ++ stale
    ∧ (cleanUpTriggered batches →
       (∀ m, m ∈ stale ↔
             (∃ path, path ∈ previous ∧ (path ∉ freshInoDocs batches)
                      ∧ m = emptyBatch path))
       ∧ inoDocsWithDiagnostics h' = freshInoDocs batches
       ∧ (∀ m, m ∈ fresh ++ stale →
               lsp.Canonical (lsp.PD_URI m) ∈ previous ∖ freshInoDocs batches →
               lsp.PD_Diagnostics m = [])
       ∧ (Forall isIno fresh →
          ∀ path, (∃ m, m ∈ fresh ++ stale ∧ lsp.Canonical (lsp.PD_URI m) = path)
                  ↔ path ∈ previous ∪ freshInoDocs batches))
    ∧ (¬ cleanUpTriggered batches →
       stale = [] ∧ inoDocsWithDiagnostics h' = previous).
Proof.
  intros Hopen Hconv Hinv previous fresh.
  destruct (FromClangd_spec p h batches Hopen Hconv)
    as (h' & stale & Hrun & Hsent & Hclean & Hkeep).
  exists h', stale. split_and!; try done.
  intros Htriggered. destruct (Hclean Htriggered) as [Hstale Hset].
  pose proof (λ m, elem_of_stale m previous (freshInoDocs batches) stale Hstale) as Hin.
  split_and!; try done.
  - intros m [Hm | Hm]%elem_of_app [Hprev Hnew]%elem_of_difference.
    + exfalso. apply Hnew. apply elem_of_freshInoDocs.
      apply list_elem_of_filter in Hm as [Hsentinel Hm].
      exists m. split_and!; try done. by apply Hinv.
    + apply Hin in Hm as (path & _ & _ & ->). reflexivity.
  - intros Hall path. rewrite elem_of_union. split.
    + intros (m & [Hm | Hm]%elem_of_app & <-).
      * right. apply elem_of_freshInoDocs.
        pose proof (proj1 (Forall_forall _ _) Hall m Hm) as Hino.
        apply list_elem_of_filter in Hm as [Hsentinel Hm]. by exists m.
      * apply Hin in Hm as (path & ? & _ & ->). by left.
    + intros Hpath.
      destruct (decide (path ∈ freshInoDocs batches)) as [Hfresh | Hstale'].
      * apply elem_of_freshInoDocs in Hfresh as (b & Hb & Hsentinel & Hino & <-).
        exists b. split; [|done]. apply elem_of_app. left.
        by apply list_elem_of_filter.
      * destruct Hpath as [Hprev | Hfresh]; [|done].
        exists (emptyBatch path). split; [|done]. apply elem_of_app. right.
        apply Hin. by exists path.
Qed.

(** C10.  When the converted diagnostics hold a batch for the sentinel
    [not-ino] URI (with the connection to the IDE open and a previous set of
    [.ino] documents): no batch for the sentinel is published, the other
    batches are, and the clearing pass runs: every path of the previous set
    without a fresh batch is sent an empty batch and the set is overwritten
    with the fresh [.ino] documents. *)
Theorem FromClangd_skips_not_ino_batch p h batches :
  closed (StdioConn h) = false →
  cpp2inoDiagnostics h p = (batches, None) →
  Exists isNotIno batches →
  (∀ path, path ∈ inoDocsWithDiagnostics h → paths.Ext path = ".ino") →
  ∃ h' published,
    FromClangd p h = (h', None)
    ∧ sent (StdioConn h') = sent (StdioConn h) ++ published
    ∧ (∀ m, m ∈ published → ¬ isNotIno m)
    ∧ (∀ b, b ∈ batches → ¬ isNotIno b → b ∈ published)
    ∧ (∀ path, path ∈ inoDocsWithDiagnostics h → path ∉ freshInoDocs batches →
               emptyBatch path ∈ published)
    ∧ inoDocsWithDiagnostics h' = freshInoDocs batches.
Proof.
  intros Hopen Hconv Hsentinel Hinv.
  destruct (FromClangd_spec p h batches Hopen Hconv)
    as (h' & stale & Hrun & Hsent & Hclean & _).
  destruct Hclean as [Hstale Hset].
  { right. eapply Exists_impl; [exact Hsentinel|]. by left. }
  pose proof (λ m, elem_of_stale m (inoDocsWithDiagnostics h) (freshInoDocs batches)
                     stale Hstale) as Hin.
  exists h', (filter (λ b, ¬ isNotIno b) batches ++ stale). split_and!; try done.
  - intros m [Hm | Hm]%elem_of_app.
    + by apply list_elem_of_filter in Hm as [? _].
    + apply Hin in Hm as (path & Hpath & _ & ->).
      unfold isNotIno, emptyBatch. cbn. intros [= ->].
      by specialize (Hinv _ Hpath).
  - intros b Hb Hnot. apply elem_of_app. left. by apply list_elem_of_filter.
  - intros path Hpath Hnew. apply elem_of_app. right. apply Hin. by exists path.
Qed.

End FanOutProperties.

(** ** Formatter set-up *)

Section FormatterProperties.
Import ls.
Variable defaultConfig : string.

Lemma WriteFile_writable fs p data :
  writable fs p →
  ∃ readable,
    WriteFile fs p data = (<[p := File data readable]> fs, None).
Proof.
  intros [Hparent Hnode]. unfold WriteFile. rewrite Hparent.
  destruct (fs !! p) as [[|content readable]|]; [done| |]; eauto.
Qed.

(** Whatever configuration is chosen, a successful write puts it into the
    target file and the cleanup removes that file only. *)
Lemma createClangdFormatterConfig_writes fs ls cppuri :
  writable fs (targetFile fs cppuri) →
  writes defaultConfig fs ls cppuri
    (let sketchFormatterConf := paths.Join (sketchRoot ls) ".clang-format" in
     if Exist fs sketchFormatterConf then try fs sketchFormatterConf defaultConfig
     else
       match config_FormatterConf ls with
       | Some conf => if Exist fs conf then try fs conf defaultConfig else defaultConfig
       | None => defaultConfig
       end).
Proof.
  intros Hwritable. unfold writes, createClangdFormatterConfig.
  fold (targetFile fs cppuri).
  destruct (WriteFile_writable _ _
              (let sketchFormatterConf := paths.Join (sketchRoot ls) ".clang-format" in
               if Exist fs sketchFormatterConf then try fs sketchFormatterConf defaultConfig
               else
                 match config_FormatterConf ls with
                 | Some conf =>
                     if Exist fs conf then try fs conf defaultConfig else defaultConfig
                 | None => defaultConfig
                 end) Hwritable) as [readable Hwrite].
  cbv zeta in Hwrite |- *. rewrite Hwrite.
  eexists _, _, readable. split; [reflexivity|]. split_and!.
  - by rewrite lookup_insert_eq.
  - intros p Hp. by rewrite lookup_insert_ne.
  - unfold Remove. by rewrite lookup_insert_eq.
Qed.

Lemma Exist_true fs p node : fs !! p = Some node → Exist fs p = true.
Proof. intros Hnode. unfold Exist. apply bool_decide_eq_true_2. by rewrite Hnode. Qed.

Lemma Exist_false fs p : fs !! p = None → Exist fs p = false.
Proof.
  intros Hnode. unfold Exist. apply bool_decide_eq_false_2. rewrite Hnode.
  by intros [? ?].
Qed.

Lemma try_readable fs conf content config :
  readableAs fs conf content → try fs conf config = content.
Proof. unfold readableAs, try, ReadFile. by intros ->. Qed.

Lemma try_unreadable fs conf config : unreadable fs conf → try fs conf config = config.
Proof. unfold unreadable, try, ReadFile. by intros [-> | [content ->]]. Qed.


End FormatterProperties.

(** * The properties on the sketch of the scenarios *)

Section Scenarios.
Import scenario.

(** C4, on the symbols clangd reports for the sketch: for a request on
    [Blink.ino] the two prototypes, which start on generated lines, are
    dropped at the top level and among the children, as is the function of
    the other tab; the functions of [Blink.ino] come back on their lines
    0 and 1. *)
Lemma documentSymbol_response_filtered_witness :
  lsp.Ext blinkIno = ".ino"
  ∧ transformClangdResult blinkOpen "textDocument/documentSymbol" blinkIno lsp.NilURI
      (DocumentSymbolResult
         (lsp.mkDocumentSymbolArrayOrSymbolInformationArray (Some clangdSymbols) None))
    = Ok (Some (IdeDocumentSymbols (cpp2inoDocumentSymbols blinkOpen clangdSymbols blinkIno)))
  ∧ cpp2inoDocumentSymbols blinkOpen clangdSymbols blinkIno
    = [ functionSymbol "setup" 0 [];
        functionSymbol "loop" 1 [functionSymbol "lambda" 1 []] ].
Proof.
  split; [reflexivity|]. split.
  - exact (proj1 (documentSymbol_response_filtered blinkOpen
                    "textDocument/documentSymbol" blinkIno lsp.NilURI
                    clangdSymbols None eq_refl)).
  - vm_compute. reflexivity.
Defined.

(** C6 (the code departs from the claim).  A completion request at line 1
    of [Blink.ino] goes to clangd at line 5 of the synthetic unit; of the
    two items clangd answers, the one whose insert text starts with an
    underscore is dropped, and the other reaches the IDE with the range of
    its text edit still on line 5 of the synthetic unit, although that line
    is line 1 of [Blink.ino]. *)
Theorem completion_in_ino_keeps_unit_range :
  (HandleMessageFromIDE 0 completionInBlink completionReply blinkOpen).2
  = Replied (Some (IdeCompletionList (lsp.mkCompletionList false [helperItem 5]))) None
  ∧ sourcemapper.CppToInoRange (sketchMapper blinkOpen) (lineRange 5 14 17)
    = (lsp.Unbox blinkIno, lineRange 1 14 17).
Proof. split; vm_compute; reflexivity. Qed.

(** C9 (the code departs from the claim).  A hover request at line 1 of
    [Blink.ino]: a hover with empty contents is answered with [nil]; a hover
    with contents reaches the IDE unchanged, its range still on line 5 of
    the synthetic unit, although that line is line 1 of [Blink.ino]. *)
Theorem hover_in_ino_keeps_unit_range :
  (HandleMessageFromIDE 0 hoverInBlink (Some (HoverResult emptyHover), None) blinkOpen).2
  = Replied None None
  ∧ (HandleMessageFromIDE 0 hoverInBlink (Some (HoverResult (loopHover 5)), None)
       blinkOpen).2
    = Replied (Some (IdeHover (loopHover 5))) None
  ∧ sourcemapper.CppToInoRange (sketchMapper blinkOpen) (lineRange 5 5 9)
    = (lsp.Unbox blinkIno, lineRange 1 5 9).
Proof. split_and!; vm_compute; reflexivity. Qed.

(** C7 (the code departs from the claim).  [Blink.ino] was never opened
    and the IDE closes it: the tracked documents and the counter stay as
    they were and the IDE gets no error, but clangd is sent the
    [textDocument/didClose] of [Blink.ino]. *)
Theorem didClose_of_unopened_document_reaches_clangd :
  docs started !! lsp.Canonical blinkIno = None
  ∧ ∃ h tasks,
      HandleMessageFromIDE 0 (closeOf blinkIno) noReply started
      = (h, tasks, Replied None None)
      ∧ sent <$> ClangdConn h = Some [closeOf blinkIno]
      ∧ docs h = docs started
      ∧ sketchTrackedFilesCount h = sketchTrackedFilesCount started.
Proof.
  split; [reflexivity|].
  destruct (HandleMessageFromIDE_didClose_untracked 0 noReply started
              (lsp.mkDidCloseTextDocumentParams (lsp.mkTextDocumentIdentifier blinkIno))
              openConn eq_refl eq_refl eq_refl)
    as (h & tasks & Hrun & Hconn & Hdocs & Hcount).
  exists h, tasks. split_and!; try done.
  by rewrite Hconn.
Qed.

(** C1 (the code departs from the claim).  With [Blink.ino] open the
    counter is 1; a [textDocument/didClose] for [Tab2.ino], which was never
    opened, leaves the counter at 1, and yet a message goes to clangd: the
    notification itself, for [Tab2.ino]. *)
Theorem didClose_with_count_unchanged_reaches_clangd :
  sketchTrackedFilesCount blinkOpen = 1
  ∧ ∃ h tasks answer,
      HandleMessageFromIDE 0 (closeOf tab2Ino) noReply blinkOpen = (h, tasks, answer)
      ∧ sketchTrackedFilesCount h = 1
      ∧ sent <$> ClangdConn h
        = (λ before, before ++ [closeOf tab2Ino]) <$> (sent <$> ClangdConn blinkOpen).
Proof.
  split; [reflexivity|].
  eexists _, _, _. split; [vm_compute; reflexivity|].
  split; vm_compute; reflexivity.
Qed.

(** C5, on the sketch: the symbols were loaded and no rebuild is pending;
    clangd then reports one function more, and the check, run at time 5000,
    sets the rebuild deadline to 6000. *)
Lemma symbols_check_schedules_rebuild_witness :
  rebuildSketchDeadline symbolsLoaded = None
  ∧ ∃ h', checkCppDocumentSymbols 5000 (symbolsReply editedSymbols) symbolsLoaded
          = (h', Ok None)
          ∧ rebuildSketchDeadline h' = Some 6000.
Proof.
  split; [reflexivity|].
  edestruct (proj2 (symbols_check_schedules_rebuild 5000 symbolsLoaded _
                      editedSymbols None eq_refl eq_refl eq_refl))
    as (h' & Hrun & _ & Hdiffer & _).
  exists h'. split; [exact Hrun|].
  apply Hdiffer. left. vm_compute. discriminate.
Defined.



(** C2, on the sketch: one notification with two content changes for
    [Blink.ino] takes the version of the synthetic unit from 1 to 3, and
    the [didChange] that goes to clangd carries the two insertions at lines
    4 and 6 of the synthetic unit: line 0 of [Blink.ino] is line 4 of the
    unit, and line 2, after the first insertion, is line 6. *)
Lemma didChange_bumps_version_per_change_witness :
  unitVersion (didChangeAll 0 [twoChanges] blinkOpen) = unitVersion blinkOpen + 2
  ∧ ∃ before cppReqs,
      sent <$> ClangdConn blinkOpen = Some before
      ∧ sent <$> ClangdConn (didChangeAll 0 [twoChanges] blinkOpen)
        = Some (before ++ ((λ cppReq, mkRequest true (DidChangeParams cppReq))
                           <$> cppReqs))
      ∧ lsp.DidChange_ContentChanges <$> cppReqs
        = [[lsp.mkTextDocumentContentChangeEvent (Some (lineRange 4 0 0)) 0
              ("int x;" +:+ nl);
            lsp.mkTextDocumentContentChangeEvent (Some (lineRange 6 0 0)) 0
              ("// main loop" +:+ nl)]].
Proof.
  destruct (ClangdConn blinkOpen) as [conn|] eqn:Hconn;
    [|vm_compute in Hconn; discriminate].
  assert (closed conn = false) as Hopen
    by (vm_compute in Hconn; injection Hconn as <-; reflexivity).
  assert (didChangesTranslate 0 [twoChanges] blinkOpen = true) as Hok
    by (vm_compute; reflexivity).
  assert (translatedRun (sketchMapper blinkOpen) [twoChanges]
          = [[lsp.mkTextDocumentContentChangeEvent (Some (lineRange 4 0 0)) 0
                ("int x;" +:+ nl);
              lsp.mkTextDocumentContentChangeEvent (Some (lineRange 6 0 0)) 0
                ("// main loop" +:+ nl)]]) as Htranslated
    by (vm_compute; reflexivity).
  destruct (didChange_bumps_version_per_change 0 [twoChanges] blinkOpen conn
              Hconn Hopen Hok) as (cppReqs & Hsent & Hversion & _ & _ & Hchanges & _).
  split; [exact Hversion|].
  exists (sent conn), cppReqs. split_and!; [reflexivity| |].
  - rewrite Hsent. reflexivity.
  - rewrite Hchanges. exact Htranslated.
Defined.

(** C2 as stated fails: a single [textDocument/didChange] for [Blink.ino]
    that carries two content changes takes the version of the synthetic
    unit from 1 to 3, not to 2, and the one [didChange] that goes to clangd
    carries the two changes at version 3. *)
Lemma didChange_with_two_changes_bumps_version_twice :
  unitVersion blinkOpen = 1
  ∧ ∃ h tasks,
      HandleMessageFromIDE 0 (mkRequest true (DidChangeParams twoChanges)) noReply blinkOpen
      = (h, tasks, Replied None None)
      ∧ unitVersion h = 3
      ∧ unitVersion h ≠ unitVersion blinkOpen + 1
      ∧ ∃ before cppReq,
          sent <$> ClangdConn h
          = Some (before ++ [mkRequest true (DidChangeParams cppReq)])
          ∧ sent <$> ClangdConn blinkOpen = Some before
          ∧ lsp.VIdent_Version (lsp.DidChange_TextDocument cppReq) = 3
          ∧ length (lsp.DidChange_ContentChanges cppReq) = 2%nat.
Proof.
  split; [vm_compute; reflexivity|].
  eexists _, _. split; [vm_compute; reflexivity|].
  split; [vm_compute; reflexivity|].
  split; [vm_compute; discriminate|].
  eexists [_], _. split; [vm_compute; reflexivity|].
  split_and!; vm_compute; reflexivity.
Qed.


(** C3, witness: with diagnostics last reported for both tabs, a fresh
    batch for [Blink.ino] alone clears [Tab2.ino] and leaves [Blink.ino] as
    the set. *)
Lemma FromClangd_clears_stale_diagnostics_witness :
  let h := reported {[lsp.Unbox blinkIno; lsp.Unbox tab2Ino]} in
  ∃ h' stale,
    FromClangd (unitDiagnostics [diagnosticAt 5 "undeclared_var_use"]) h = (h', None)
    ∧ sent (StdioConn h') = sent (StdioConn h) ++ [blinkBatch] ++ stale
    ∧ emptyBatch (lsp.Unbox tab2Ino) ∈ stale
    ∧ inoDocsWithDiagnostics h' = freshInoDocs [blinkBatch].
Proof.
  intros h.
  assert (closed (StdioConn h) = false) as Hopen by (vm_compute; reflexivity).
  assert (cpp2inoDiagnostics h (unitDiagnostics [diagnosticAt 5 "undeclared_var_use"])
          = ([blinkBatch], None)) as Hconv by (vm_compute; reflexivity).
  assert (∀ path, path ∈ inoDocsWithDiagnostics h → paths.Ext path = ".ino") as Hinv.
  { subst h. cbn.
    intros path [->%elem_of_singleton | ->%elem_of_singleton]%elem_of_union;
      vm_compute; reflexivity. }
  assert (cleanUpTriggered [blinkBatch]) as Htriggered.
  { right. apply Exists_cons_hd. right. vm_compute. reflexivity. }
  assert (lsp.Unbox tab2Ino ∉ freshInoDocs [blinkBatch]) as Hstale.
  { apply (bool_decide_unpack _). vm_compute. reflexivity. }
  destruct (FromClangd_clears_stale_diagnostics _ h _ Hopen Hconv Hinv)
    as (h' & stale & Hrun & Hsent & Hclean & _).
  destruct (Hclean Htriggered) as (Hin & Hset & _).
  exists h', stale. split_and!; [exact Hrun| |apply Hin|exact Hset].
  - rewrite Hsent. f_equal.
  - exists (lsp.Unbox tab2Ino). split_and!; [|exact Hstale|reflexivity].
    subst h. cbn. apply elem_of_union. right. by apply elem_of_singleton.
Defined.

(** C3, counterexample to "whenever fresh diagnostics are published": with
    diagnostics last reported for [Blink.ino], diagnostics of clangd for a
    header outside the sketch are published as they are; no empty batch is
    sent for [Blink.ino] and the set is not overwritten. *)
Lemma header_diagnostics_clear_nothing :
  let h := reported {[lsp.Unbox blinkIno]} in
  (lsp.Unbox blinkIno ∉ freshInoDocs [headerDiagnostics])
  ∧ ∃ h', FromClangd headerDiagnostics h = (h', None)
          ∧ sent (StdioConn h') = [headerDiagnostics]
          ∧ (emptyBatch (lsp.Unbox blinkIno) ∉ sent (StdioConn h'))
          ∧ inoDocsWithDiagnostics h' = {[lsp.Unbox blinkIno]}
          ∧ inoDocsWithDiagnostics h' ≠ freshInoDocs [headerDiagnostics].
Proof.
  intros h. split.
  { apply (bool_decide_unpack _). vm_compute. reflexivity. }
  destruct (FromClangd headerDiagnostics h) as [h' e] eqn:Hrun.
  vm_compute in Hrun. injection Hrun as <- <-.
  eexists. split_and!; [reflexivity|reflexivity| | |].
  - cbn. intros Hin%list_elem_of_singleton. discriminate Hin.
  - apply (bool_decide_unpack _). vm_compute. reflexivity.
  - apply (bool_decide_unpack _). vm_compute. reflexivity.
Qed.

(** C10, witness: a diagnostic on a generated line of the synthetic unit
    converts into a batch for the sentinel, which is not published, while
    [Blink.ino], reported before, is cleared. *)
Lemma FromClangd_skips_not_ino_batch_witness :
  let h := reported {[lsp.Unbox blinkIno]} in
  ∃ h' published,
    FromClangd (unitDiagnostics [diagnosticAt 1 "redefinition"]) h = (h', None)
    ∧ sent (StdioConn h') = sent (StdioConn h) ++ published
    ∧ (notInoBatch ∉ published)
    ∧ emptyBatch (lsp.Unbox blinkIno) ∈ published
    ∧ inoDocsWithDiagnostics h' = freshInoDocs [notInoBatch].
Proof.
  intros h.
  assert (closed (StdioConn h) = false) as Hopen by (vm_compute; reflexivity).
  assert (cpp2inoDiagnostics h (unitDiagnostics [diagnosticAt 1 "redefinition"])
          = ([notInoBatch], None)) as Hconv by (vm_compute; reflexivity).
  assert (Exists isNotIno [notInoBatch]) as Hsentinel.
  { apply Exists_cons_hd. reflexivity. }
  assert (∀ path, path ∈ inoDocsWithDiagnostics h → paths.Ext path = ".ino") as Hinv.
  { subst h. cbn. intros path ->%elem_of_singleton. vm_compute. reflexivity. }
  assert (lsp.Unbox blinkIno ∉ freshInoDocs [notInoBatch]) as Hstale.
  { apply (bool_decide_unpack _). vm_compute. reflexivity. }
  destruct (FromClangd_skips_not_ino_batch _ h _ Hopen Hconv Hsentinel Hinv)
    as (h' & published & Hrun & Hsent & Hnone & _ & Hclear & Hset).
  exists h', published. split_and!; [exact Hrun|exact Hsent| | |exact Hset].
  - intros Hin. by apply (Hnone _ Hin).
  - apply Hclear; [|exact Hstale]. subst h. cbn. by apply elem_of_singleton.
Defined.

End Scenarios.
